(** * Content-generation Lambda: a shallow embedding of [utils.py] and [handler.py]

    Python values that travel through the handler are the values [json.loads]
    produces, so the embedding works on a small JSON value type.  A Python
    [str] is a Rocq [string] whose characters are read as the code points
    0..255; floating-point numbers are not represented.  Calls that fail
    raise, and raising is an explicit result. *)

From Stdlib Require Import Bool Arith NArith ZArith Lia List Ascii String DecimalString.
Import ListNotations.
Local Open Scope string_scope.
Set Warnings "-register-all".

(** ** Strings: the [str] methods the source calls *)

Module Str.

Definition code (c : ascii) : nat := nat_of_ascii c.

Definition between (lo hi : nat) (c : ascii) : bool :=
  ((lo <=? code c) && (code c <=? hi))%nat.

(** [A-Z], and the upper-case letters of the Latin-1 block (all of
    0xC0..0xDE but the multiplication sign 0xD7). *)
Definition is_upper (c : ascii) : bool :=
  between 65 90 c || (between 192 222 c && negb (code c =? 215)%nat).

Definition lower_char (c : ascii) : ascii :=
  if is_upper c then ascii_of_nat (code c + 32) else c.

(** [text.lower()] *)
Fixpoint lower (s : string) : string :=
  match s with
  | EmptyString => EmptyString
  | String c s' => String (lower_char c) (lower s')
  end.

(** The character class [[a-z0-9]] of the pattern in [slugify]. *)
Definition is_alnum (c : ascii) : bool :=
  between 97 122 c || between 48 57 c.

Definition hyphen : ascii := "-"%char.

Definition is_hyphen (c : ascii) : bool := Ascii.eqb c hyphen.

(** [re.sub(r'[^a-z0-9]+', '-', s)]: every maximal run of characters outside
    the class becomes one hyphen.  [in_run] tells that the hyphen of the
    current run is already written. *)
Fixpoint sub_runs (in_run : bool) (s : string) : string :=
  match s with
  | EmptyString => EmptyString
  | String c s' =>
      if is_alnum c then String c (sub_runs false s')
      else if in_run then sub_runs true s'
      else String hyphen (sub_runs true s')
  end.

Definition re_sub_non_alnum (s : string) : string := sub_runs false s.

(** [s.lstrip(chars)] and [s.rstrip(chars)] for a set of characters [p]. *)
Fixpoint lstrip (p : ascii -> bool) (s : string) : string :=
  match s with
  | EmptyString => EmptyString
  | String c s' => if p c then lstrip p s' else s
  end.

Fixpoint rstrip (p : ascii -> bool) (s : string) : string :=
  match s with
  | EmptyString => EmptyString
  | String c s' =>
      match rstrip p s' with
      | EmptyString => if p c then EmptyString else String c EmptyString
      | r => String c r
      end
  end.

Definition strip (p : ascii -> bool) (s : string) : string :=
  rstrip p (lstrip p s).

(** The characters [str.strip()] removes when called without argument:
    tab..carriage return, the separators 0x1C..0x1F, space, NEL and the
    no-break space. *)
Definition is_space (c : ascii) : bool :=
  between 9 13 c || between 28 32 c || (code c =? 133)%nat || (code c =? 160)%nat.

(** [s[:n]] *)
Fixpoint take (n : nat) (s : string) : string :=
  match n, s with
  | S n', String c s' => String c (take n' s')
  | _, _ => EmptyString
  end.

Fixpoint all (p : ascii -> bool) (s : string) : bool :=
  match s with
  | EmptyString => true
  | String c s' => p c && all p s'
  end.

Definition first (s : string) : option ascii :=
  match s with
  | EmptyString => None
  | String c _ => Some c
  end.

Fixpoint last (s : string) : option ascii :=
  match s with
  | EmptyString => None
  | String c EmptyString => Some c
  | String _ s' => last s'
  end.

Fixpoint repeat (c : ascii) (n : nat) : string :=
  match n with
  | O => EmptyString
  | S n' => String c (repeat c n')
  end.

(** [needle in haystack] for two strings. *)
Fixpoint contains (needle s : string) : bool :=
  prefix needle s ||
  match s with
  | EmptyString => false
  | String _ s' => contains needle s'
  end.

(** [true] when two neighbouring characters both satisfy [p]. *)
Fixpoint adjacent (p : ascii -> bool) (s : string) : bool :=
  match s with
  | EmptyString => false
  | String c s' =>
      (p c && match first s' with Some c' => p c' | None => false end)
      || adjacent p s'
  end.

(** The characters that satisfy [p], in order. *)
Fixpoint keep (p : ascii -> bool) (s : string) : string :=
  match s with
  | EmptyString => EmptyString
  | String c s' => if p c then String c (keep p s') else keep p s'
  end.

End Str.

(** ** [utils.slugify] and [utils.generate_filename] on strings *)

Definition slugify (text : string) : string :=
  let slug := Str.lower text in
  let slug := Str.re_sub_non_alnum slug in
  let slug := Str.strip Str.is_hyphen slug in
  Str.take 100 slug.

(** The slug before the cut at 100 characters. *)
Definition uncut (text : string) : string :=
  Str.strip Str.is_hyphen (Str.re_sub_non_alnum (Str.lower text)).

(** The characters a slug may contain: [[a-z0-9-]]. *)
Definition is_slug_char (c : ascii) : bool :=
  Str.is_alnum c || Str.is_hyphen c.


(** ** Values, exceptions and results *)

Inductive json : Type :=
| JNull
| JBool (b : bool)
| JNum (n : Z)
| JStr (s : string)
| JArr (items : list json)
| JObj (fields : list (string * json)).

(** A Python [dict] with string keys, in insertion order; the first binding
    of a key is the one the dict holds. *)
Definition dict : Type := list (string * json).

Inductive exn_class : Type :=
| TypeError | AttributeError | KeyError | IndexError | ValueError
| JSONDecodeError | BinasciiError | UnicodeDecodeError
| ClientError.

(** An instance of [Exception]: its class and [str(e)].  The interpreter's
    own signals, which [except Exception] lets through, are left out. *)
Record exn : Type := Exn { exn_type : exn_class; exn_str : string }.

Inductive pyres (A : Type) : Type :=
| Ok (a : A)
| Raise (e : exn).
Arguments Ok {A} a.
Arguments Raise {A} e.

Definition pbind {A B} (r : pyres A) (k : A -> pyres B) : pyres B :=
  match r with
  | Ok a => k a
  | Raise e => Raise e
  end.

Definition str_of_nat (n : nat) : string :=
  NilEmpty.string_of_uint (Nat.to_uint n).

Definition type_name (v : json) : string :=
  match v with
  | JNull => "NoneType"
  | JBool _ => "bool"
  | JNum _ => "int"
  | JStr _ => "str"
  | JArr _ => "list"
  | JObj _ => "dict"
  end.

(** [bool(v)] *)
Definition py_truthy (v : json) : bool :=
  match v with
  | JNull => false
  | JBool b => b
  | JNum n => negb (Z.eqb n 0)
  | JStr s => negb (String.eqb s "")
  | JArr l => match l with [] => false | _ => true end
  | JObj d => match d with [] => false | _ => true end
  end.

(** [v == s] for a string literal [s] *)
Definition py_eq_str (v : json) (s : string) : bool :=
  match v with
  | JStr s' => String.eqb s' s
  | _ => false
  end.

Fixpoint dict_lookup (k : string) (d : dict) : option json :=
  match d with
  | [] => None
  | (k', v) :: d' => if String.eqb k' k then Some v else dict_lookup k d'
  end.

(** [k in d] *)
Definition dict_mem (k : string) (d : dict) : bool :=
  match dict_lookup k d with Some _ => true | None => false end.

(** [d.get(k, default)] *)
Definition dict_get (k : string) (default : json) (d : dict) : json :=
  match dict_lookup k d with Some v => v | None => default end.

(** [d[k]] *)
Definition dict_getitem (k : string) (d : dict) : pyres json :=
  match dict_lookup k d with
  | Some v => Ok v
  | None => Raise (Exn KeyError ("'" ++ k ++ "'"))
  end.

(** The keys of a dict, each once, in order. *)
Fixpoint dict_keys (d : dict) : list string :=
  match d with
  | [] => []
  | (k, _) :: d' =>
      k :: filter (fun k' => negb (String.eqb k' k)) (dict_keys d')
  end.

Definition not_iterable (v : json) : exn :=
  Exn TypeError ("'" ++ type_name v ++ "' object is not iterable").

(** The sequence a [for] loop or a comprehension runs over. *)
Definition py_iter (v : json) : pyres (list json) :=
  match v with
  | JArr l => Ok l
  | JStr s => Ok (map (fun c => JStr (String c EmptyString)) (list_ascii_of_string s))
  | JObj d => Ok (map JStr (dict_keys d))
  | _ => Raise (not_iterable v)
  end.

(** [s in v] for a string literal [s] *)
Definition py_in (s : string) (v : json) : pyres bool :=
  match v with
  | JObj d => Ok (dict_mem s d)
  | JArr l => Ok (existsb (fun x => py_eq_str x s) l)
  | JStr s' => Ok (Str.contains s s')
  | _ => Raise (Exn TypeError
                  ("argument of type '" ++ type_name v ++ "' is not iterable"))
  end.

Definition not_subscriptable (v : json) : exn :=
  Exn TypeError ("'" ++ type_name v ++ "' object is not subscriptable").

(** [v[k]] for a string literal [k] *)
Definition py_getitem (v : json) (k : string) : pyres json :=
  match v with
  | JObj d => dict_getitem k d
  | JArr _ => Raise (Exn TypeError "list indices must be integers or slices, not str")
  | JStr _ => Raise (Exn TypeError "string indices must be integers, not 'str'")
  | _ => Raise (not_subscriptable v)
  end.

(** [v[0]] *)
Definition py_getitem0 (v : json) : pyres json :=
  match v with
  | JArr (x :: _) => Ok x
  | JArr [] => Raise (Exn IndexError "list index out of range")
  | JStr (String c _) => Ok (JStr (String c EmptyString))
  | JStr EmptyString => Raise (Exn IndexError "string index out of range")
  | JObj _ => Raise (Exn KeyError "0")
  | _ => Raise (not_subscriptable v)
  end.

Definition no_attribute (v : json) (attr : string) : exn :=
  Exn AttributeError
      ("'" ++ type_name v ++ "' object has no attribute '" ++ attr ++ "'").

(** [v.get(k, default)] *)
Definition py_get (v : json) (k : string) (default : json) : pyres json :=
  match v with
  | JObj d => Ok (dict_get k default d)
  | _ => Raise (no_attribute v "get")
  end.

(** ** [base64.b64decode] on a [str], as CPython's [binascii.a2b_base64]
    runs it without strict mode *)

Module Base64.

Definition value (c : ascii) : option N :=
  let n := N_of_ascii c in
  if ((65 <=? n) && (n <=? 90))%N then Some (n - 65)%N
  else if ((97 <=? n) && (n <=? 122))%N then Some (n - 71)%N
  else if ((48 <=? n) && (n <=? 57))%N then Some (n + 4)%N
  else if (n =? 43)%N then Some 62%N
  else if (n =? 47)%N then Some 63%N
  else None.

Definition pad : ascii := "="%char.

Definition byte (n : N) : ascii := ascii_of_N (n mod 256).

(** The decoding loop: [quad_pos] is the position in the current group of
    four digits, [leftchar] the bits not yet written, [pads] the padding
    characters seen since the last digit, [out] the bytes written so far,
    last first. *)
Fixpoint a2b (s : string) (quad_pos : nat) (leftchar : N) (pads : nat)
    (out : list ascii) : pyres string :=
  match s with
  | EmptyString =>
      match quad_pos with
      | 0 => Ok (string_of_list_ascii (rev out))
      | 1 => Raise (Exn BinasciiError
                 ("Invalid base64-encoded string: number of data characters ("
                  ++ str_of_nat (List.length out / 3 * 4 + 1)
                  ++ ") cannot be 1 more than a multiple of 4"))
      | _ => Raise (Exn BinasciiError "Incorrect padding")
      end
  | String c s' =>
      if Ascii.eqb c pad then
        if (2 <=? quad_pos)%nat then
          if (4 <=? quad_pos + S pads)%nat
          then Ok (string_of_list_ascii (rev out))
          else a2b s' quad_pos leftchar (S pads) out
        else a2b s' quad_pos leftchar pads out
      else
        match value c with
        | None => a2b s' quad_pos leftchar pads out
        | Some v =>
            match quad_pos with
            | 0 => a2b s' 1 v 0 out
            | 1 => a2b s' 2 (N.land v 15) 0
                       (byte (N.lor (N.shiftl leftchar 2) (N.shiftr v 4)) :: out)
            | 2 => a2b s' 3 (N.land v 3) 0
                       (byte (N.lor (N.shiftl leftchar 4) (N.shiftr v 2)) :: out)
            | _ => a2b s' 0 0%N 0
                       (byte (N.lor (N.shiftl leftchar 6) v) :: out)
            end
        end
  end.

Definition is_ascii (c : ascii) : bool := (N_of_ascii c <? 128)%N.

(** [base64.b64decode(v)]: the bytes, as a string of bytes. *)
Definition b64decode (v : json) : pyres string :=
  match v with
  | JStr s =>
      if Str.all is_ascii s then a2b s 0 0%N 0 []
      else Raise (Exn ValueError
                    "string argument should contain only ASCII characters")
  | _ => Raise (Exn TypeError
                  ("argument should be a bytes-like object or ASCII string, not '"
                   ++ type_name v ++ "'"))
  end.

End Base64.

(** ** The world around the handler *)

(** An entry of the configuration table of [config.py]. *)
Record category_config : Type :=
  { name : string; prompt_template : string }.

(** The outbound calls of one invocation, oldest first. *)
Inductive call : Type :=
| InvokeModel (modelId prompt : string)
| PutObject (Bucket Key Body : string).

(** What the module imports or reads at start-up.  The clients may answer
    differently from call to call, so they see the calls made before. *)
Record env : Type :=
  { CATEGORY_CONFIG : list (string * category_config);
    OUTPUT_BUCKET : string;
    BEDROCK_MODEL_ID : string;
    (** [json.loads] *)
    json_loads : string -> pyres json;
    (** [bytes.decode('utf-8')], [None] for [UnicodeDecodeError] *)
    decode_utf8 : string -> option string;
    (** [repr] *)
    py_repr : json -> string;
    (** [template.format(topic=topic)] *)
    str_format : string -> json -> pyres string;
    (** [templates.render_html_page(topic, category, category_name, content,
        meta_description)] *)
    render_html_page : json -> json -> string -> json -> string -> pyres string;
    (** [bedrock_runtime.invoke_model] followed by reading and parsing the
        response body *)
    invoke_model : list call -> string -> string -> pyres json;
    (** [s3_client.put_object] *)
    put_object : list call -> string -> string -> string -> pyres unit;
    (** [datetime.utcnow().isoformat()] *)
    utcnow_isoformat : list call -> string }.

(** Computations that make outbound calls and may raise. *)
Definition M (A : Type) : Type := list call -> pyres A * list call.

Definition ret {A} (a : A) : M A := fun log => (Ok a, log).

Definition raise {A} (e : exn) : M A := fun log => (Raise e, log).

Definition bind {A B} (m : M A) (k : A -> M B) : M B :=
  fun log =>
    match m log with
    | (Ok a, log') => k a log'
    | (Raise e, log') => (Raise e, log')
    end.

Definition lift {A} (r : pyres A) : M A := fun log => (r, log).

(** [try: m except Exception as e: h e] *)
Definition try_except {A} (m : M A) (h : exn -> M A) : M A :=
  fun log =>
    match m log with
    | (Ok a, log') => (Ok a, log')
    | (Raise e, log') => h e log'
    end.

Declare Scope pyres_scope.
Delimit Scope pyres_scope with pyres.
Declare Scope M_scope.
Delimit Scope M_scope with M.
Notation "x <- r ;; k" := (pbind r (fun x => k))
  (at level 61, r at next level, right associativity) : pyres_scope.
Notation "x <- m ;; k" := (bind m (fun x => k))
  (at level 61, m at next level, right associativity) : M_scope.
Notation "m1 ;; m2" := (bind m1 (fun _ => m2))
  (at level 61, right associativity) : M_scope.

(** ** utils.py *)

Definition response_headers : Type := list (string * string).

(** The envelope [create_response] returns.  [body] is the payload handed to
    [json.dumps]; its serialisation is not modelled. *)
Record response : Type :=
  { statusCode : Z; headers : response_headers; body : json }.

Definition default_headers : response_headers :=
  [ ("Content-Type", "application/json");
    ("Access-Control-Allow-Origin", "*");
    ("Access-Control-Allow-Headers",
     "Content-Type,X-Amz-Date,Authorization,X-Api-Key,X-Amz-Security-Token");
    ("Access-Control-Allow-Methods", "GET,POST,OPTIONS") ].

(** [d[k] = v] on a dict of strings *)
Fixpoint headers_set (k v : string) (d : response_headers) : response_headers :=
  match d with
  | [] => [(k, v)]
  | (k', v') :: d' =>
      if String.eqb k' k then (k, v) :: d' else (k', v') :: headers_set k v d'
  end.

(** [d.update(other)] *)
Definition headers_update (d other : response_headers) : response_headers :=
  fold_left (fun acc kv => headers_set (fst kv) (snd kv) acc) other d.

Definition create_response (status_code : Z) (payload : json)
    (extra : option response_headers) : response :=
  let hs :=
    match extra with
    | Some (kv :: more) => headers_update default_headers (kv :: more)
    | _ => default_headers
    end in
  {| statusCode := status_code; headers := hs; body := payload |}.

Definition get_http_method (event : dict) : pyres json :=
  (v2 <-
     (if dict_mem "requestContext" event
      then py_in "http" (dict_get "requestContext" (JObj []) event)
      else Ok false) ;;
   if v2 : bool then
     ctx <- dict_getitem "requestContext" event ;;
     http <- py_getitem ctx "http" ;;
     py_get http "method" (JStr "GET")
   else Ok (dict_get "httpMethod" (JStr "GET") event))%pyres.

(** [slugify] applied to whatever value the caller passes: [text.lower()]
    exists on strings only. *)
Definition slugify_value (text : json) : pyres string :=
  match text with
  | JStr s => Ok (slugify s)
  | _ => Raise (no_attribute text "lower")
  end.

Section Utils.

Variable E : env.

(** [try: return json.loads(text)] with its
    [except json.JSONDecodeError: return {}] *)
Definition loads_or_empty (text : string) : pyres json :=
  match json_loads E text with
  | Ok v => Ok v
  | Raise e =>
      match exn_type e with
      | JSONDecodeError => Ok (JObj [])
      | _ => Raise e
      end
  end.

Definition parse_request_body (event : dict) : pyres json :=
  let body := dict_get "body" (JStr "{}") event in
  (body <-
     (if py_truthy (dict_get "isBase64Encoded" (JBool false) event)
         && py_truthy body
      then
        bytes <- Base64.b64decode body ;;
        match decode_utf8 E bytes with
        | Some text => Ok (JStr text)
        | None => Raise (Exn UnicodeDecodeError
                           "'utf-8' codec can't decode bytes")
        end
      else Ok body) ;;
   match body with
   | JStr text => loads_or_empty text
   | _ => Ok (if py_truthy body then body else JObj [])
   end)%pyres.

(** [str(v)], as an f-string formats a value *)
Definition py_str (v : json) : string :=
  match v with
  | JStr s => s
  | _ => py_repr E v
  end.

Definition generate_filename (topic category : json) : pyres string :=
  (topic_slug <- slugify_value topic ;;
   Ok (topic_slug ++ "-" ++ py_str category ++ ".html"))%pyres.

End Utils.


(** ** handler.py *)

Definition nl : string := String (ascii_of_nat 10) EmptyString.
Definition dquote : string := String (ascii_of_nat 34) EmptyString.

(** The instruction block appended to every article prompt. *)
Definition html_instructions : string :=
  nl ++ nl
  ++ "Format the article in clean HTML suitable for a blog post. Include:" ++ nl
  ++ "- A compelling <h1> title" ++ nl
  ++ "- Use <h2> and <h3> for section headers" ++ nl
  ++ "- Use <p> tags for paragraphs" ++ nl
  ++ "- Use <ul>/<ol> and <li> for lists where appropriate" ++ nl
  ++ "- Use <strong> and <em> for emphasis" ++ nl
  ++ "- Do NOT include <html>, <head>, or <body> tags - just the article content" ++ nl
  ++ "- Make the content engaging, well-researched, and approximately 800-1200 words".

(** [v.strip()] *)
Definition py_strip (v : json) : pyres string :=
  match v with
  | JStr s => Ok (Str.strip Str.is_space s)
  | _ => Raise (no_attribute v "strip")
  end.

(** What [generate_content] returns. *)
Record generation_result : Type :=
  { content : json; meta_description : string; category_name : string }.

Definition generated_record (topic category : json) (s3_key created_at : string)
    : json :=
  JObj [ ("topic", topic); ("category", category);
         ("output_path", JStr s3_key); ("created_at", JStr created_at) ].

Definition failure_record (topic category : json) (e : exn) : json :=
  JObj [ ("topic", topic); ("category", category);
         ("error", JStr (exn_str e)) ].

(** The two lists the handler appends to: [generated] and [failed]. *)
Definition outcome : Type := (list json * list json)%type.

Definition batch_message (generated failed : list json) : string :=
  match failed with
  | _ :: _ =>
      "Generated " ++ str_of_nat (List.length generated) ++ " pages. "
      ++ str_of_nat (List.length failed) ++ " failed."
  | [] =>
      "Successfully generated " ++ str_of_nat (List.length generated) ++ " pages."
  end.

(** The payload of the final response. *)
Definition batch_payload (generated failed : list json) : json :=
  JObj [ ("success", JBool (List.length failed =? 0)%nat);
         ("generated", JArr generated);
         ("failed", JArr failed);
         ("total_generated", JNum (Z.of_nat (List.length generated)));
         ("message", JStr (batch_message generated failed)) ].

(** [for x in xs: body], threading the variables the body updates. *)
Fixpoint for_each {A S : Type} (xs : list A) (body : A -> S -> M S) (s : S)
    : M S :=
  match xs with
  | [] => ret s
  | x :: xs' => (s' <- body x s ;; for_each xs' body s')%M
  end.

Section Handler.

Variable E : env.

Fixpoint config_find (k : string) (table : list (string * category_config))
    : option category_config :=
  match table with
  | [] => None
  | (k', cfg) :: table' =>
      if String.eqb k' k then Some cfg else config_find k table'
  end.

(** [CATEGORY_CONFIG.get(category)]; lists and dicts cannot be hashed. *)
Definition config_lookup (category : json) : pyres (option category_config) :=
  match category with
  | JStr k => Ok (config_find k (CATEGORY_CONFIG E))
  | JArr _ | JObj _ =>
      Raise (Exn TypeError ("unhashable type: '" ++ type_name category ++ "'"))
  | _ => Ok None
  end.

(** [category in CATEGORY_CONFIG] *)
Definition in_config (category : json) : pyres bool :=
  (cfg <- config_lookup category ;;
   Ok (match cfg with Some _ => true | None => false end))%pyres.

Definition generate_with_bedrock (prompt : string) : M json :=
  fun log =>
    ((response_body <- invoke_model E log (BEDROCK_MODEL_ID E) prompt ;;
      blocks <- py_getitem response_body "content" ;;
      block <- py_getitem0 blocks ;;
      py_getitem block "text")%pyres,
     (log ++ [InvokeModel (BEDROCK_MODEL_ID E) prompt])%list).

(** The second prompt of [generate_content]. *)
Definition meta_prompt_for (topic : json) (category_config : category_config)
    : string :=
  "Write a compelling meta description (150-160 characters) for a blog article about "
  ++ dquote ++ py_str E topic ++ dquote ++ " focusing on "
  ++ Str.lower (name category_config) ++ ". " ++ nl
  ++ "The description should be engaging and include the main keyword. Return ONLY the meta description text, nothing else.".

Definition generate_content (topic category : json) : M generation_result :=
  (known <- lift (config_lookup category) ;;
   match known with
   | None => raise (Exn ValueError ("Unknown category: " ++ py_str E category))
   | Some category_config =>
       prompt <- lift (str_format E (prompt_template category_config) topic) ;;
       let prompt := prompt ++ html_instructions in
       content <- generate_with_bedrock prompt ;;
       let meta_prompt := meta_prompt_for topic category_config in
       meta <- generate_with_bedrock meta_prompt ;;
       stripped <- lift (py_strip meta) ;;
       ret {| content := content;
              meta_description := Str.take 160 stripped;
              category_name := name category_config |}
   end)%M.

Definition save_to_s3 (topic category content : json)
    (meta_description category_name : string) : M string :=
  (html <- lift (render_html_page E topic category category_name content
                   meta_description) ;;
   filename <- lift (generate_filename E topic category) ;;
   let key := "output/" ++ filename in
   (fun log => (put_object E log (OUTPUT_BUCKET E) key html,
                (log ++ [PutObject (OUTPUT_BUCKET E) key html])%list)) ;;
   ret key)%M.

Definition utcnow : M string :=
  fun log => (Ok (utcnow_isoformat E log), log).

(** The [try] block of the inner loop. *)
Definition attempt_pair (topic category : json) (acc : outcome) : M outcome :=
  (result <- generate_content topic category ;;
   s3_key <- save_to_s3 topic category (content result)
               (meta_description result) (category_name result) ;;
   created_at <- utcnow ;;
   ret ((fst acc ++ [generated_record topic category s3_key created_at])%list,
        snd acc))%M.

(** The body of the inner loop: the [try] block and its handler. *)
Definition process_pair (topic category : json) (acc : outcome) : M outcome :=
  try_except
    (attempt_pair topic category acc)
    (fun e => ret (fst acc, (snd acc ++ [failure_record topic category e])%list)).

(** [[c for c in categories if c not in CATEGORY_CONFIG]] *)
Fixpoint reject_unknown (cs : list json) : pyres (list json) :=
  match cs with
  | [] => Ok []
  | c :: cs' =>
      (known <- in_config c ;;
       rest <- reject_unknown cs' ;;
       Ok (if known : bool then rest else c :: rest))%pyres
  end.

Definition error_payload (message : string) : json :=
  JObj [("error", JStr message)].

(** The handler; its second argument, the Lambda context, is never read. *)
Definition handler (event : dict) : M response :=
  (method <- lift (get_http_method event) ;;
   if py_eq_str method "OPTIONS" then
     ret (create_response 200 (JObj []) None)
   else if negb (py_eq_str method "POST") then
     ret (create_response 405 (error_payload "Method not allowed") None)
   else
     body <- lift (parse_request_body E event) ;;
     topics <- lift (py_get body "topics" (JArr [])) ;;
     categories <- lift (py_get body "categories" (JArr [])) ;;
     if negb (py_truthy topics) then
       ret (create_response 400
              (error_payload "At least one topic is required") None)
     else if negb (py_truthy categories) then
       ret (create_response 400
              (error_payload "At least one category is required") None)
     else
       cs <- lift (py_iter categories) ;;
       invalid_categories <- lift (reject_unknown cs) ;;
       if py_truthy (JArr invalid_categories) then
         ret (create_response 400
                (error_payload ("Invalid categories: "
                                ++ py_repr E (JArr invalid_categories))) None)
       else if negb (py_truthy (JStr (OUTPUT_BUCKET E))) then
         ret (create_response 500
                (error_payload "OUTPUT_BUCKET_NAME not configured") None)
       else
         ts <- lift (py_iter topics) ;;
         acc <- for_each ts
                  (fun topic acc =>
                     cs <- lift (py_iter categories) ;;
                     for_each cs (process_pair topic) acc)
                  ([], []) ;;
         ret (create_response 200 (batch_payload (fst acc) (snd acc)) None))%M.

End Handler.

(** ** How the records of a batch relate to its pairs *)

(** [batch pairs generated failed]: going through [pairs] in order, every
    pair put exactly one record, either at the end of [generated] or at the
    end of [failed], and that record carries the pair's topic and category. *)
Inductive batch : list (json * json) -> list json -> list json -> Prop :=
| batch_nil : batch [] [] []
| batch_generated topic category s3_key created_at pairs generated failed :
    batch pairs generated failed ->
    batch ((topic, category) :: pairs)
          (generated_record topic category s3_key created_at :: generated)
          failed
| batch_failed topic category e pairs generated failed :
    batch pairs generated failed ->
    batch ((topic, category) :: pairs)
          generated
          (failure_record topic category e :: failed).


(** A field of a JSON object. *)
Definition field (k : string) (v : json) : option json :=
  match v with
  | JObj d => dict_lookup k d
  | _ => None
  end.

(** The status code of a run of the handler, if it returned. *)
Definition status (run : pyres response * list call) : option Z :=
  match fst run with
  | Ok resp => Some (statusCode resp)
  | Raise _ => None
  end.

(** Values that can be looked up in a dict. *)
Definition hashable (v : json) : bool :=
  match v with
  | JArr _ | JObj _ => false
  | _ => true
  end.

(** A key of the configuration table. *)
Definition known (E : env) (category : json) : bool :=
  match category with
  | JStr k => match config_find k (CATEGORY_CONFIG E) with
              | Some _ => true
              | None => false
              end
  | _ => false
  end.

(** The object key of a pair of strings. *)
Definition output_key (topic category : string) : string :=
  "output/" ++ slugify topic ++ "-" ++ category ++ ".html".

(** A request that passes every validation step of the handler: a POST
    whose body is an object with non-empty [topics] and [categories], running
    over [ts] and [cs], every category a key of the table, with the output
    bucket configured. *)
Record valid_request (E : env) (event : dict) (ts cs : list json) : Prop :=
  { request_method : get_http_method event = Ok (JStr "POST");
    request_fields : exists body topics categories,
      parse_request_body E event = Ok (JObj body)
      /\ dict_get "topics" (JArr []) body = topics
      /\ dict_get "categories" (JArr []) body = categories
      /\ py_truthy topics = true
      /\ py_truthy categories = true
      /\ py_iter topics = Ok ts
      /\ py_iter categories = Ok cs;
    request_categories : Forall (fun c => known E c = true) cs;
    request_bucket : OUTPUT_BUCKET E <> "" }.

(** Generation, respectively persistence, succeeds for a pair whatever calls
    were made before. *)
Definition generation_succeeds (E : env) (topic category : string) : Prop :=
  forall log, exists result log',
    generate_content E (JStr topic) (JStr category) log = (Ok result, log').

Definition persistence_succeeds (E : env) (topic category : string) : Prop :=
  forall content meta_description category_name log, exists key log',
    save_to_s3 E (JStr topic) (JStr category) content meta_description
      category_name log
    = (Ok key, log').

(** The topic, category and object key a record of [generated] carries. *)
Definition record_summary (r : json)
    : option json * option json * option json :=
  (field "topic" r, field "category" r, field "output_path" r).

Definition pair_summary (p : string * string)
    : option json * option json * option json :=
  (Some (JStr (fst p)), Some (JStr (snd p)),
   Some (JStr (output_key (fst p) (snd p)))).

(** ** Headers and outbound calls, for the properties below *)

(** [d.get(k)] on a dict of strings *)
Fixpoint headers_lookup (k : string) (d : response_headers) : option string :=
  match d with
  | [] => None
  | (k', v) :: d' => if String.eqb k' k then Some v else headers_lookup k d'
  end.

Definition is_invoke (c : call) : bool :=
  match c with InvokeModel _ _ => true | PutObject _ _ _ => false end.

Definition is_put (c : call) : bool :=
  match c with InvokeModel _ _ => false | PutObject _ _ _ => true end.

Definition count_invoke (calls : list call) : nat :=
  List.length (filter is_invoke calls).

Definition count_put (calls : list call) : nat :=
  List.length (filter is_put calls).

(** A call as the handler makes them: to the configured model, or a write
    to the configured bucket under [output/] with an [.html] name. *)
Definition handler_call (E : env) (c : call) : Prop :=
  match c with
  | InvokeModel modelId _ => modelId = BEDROCK_MODEL_ID E
  | PutObject Bucket Key _ =>
      Bucket = OUTPUT_BUCKET E
      /\ exists stem, Key = "output/" ++ stem ++ ".html"
  end.

(** The calls of a pair that ends in [failed]: none, one or two calls to the
    model, or both and a write that raised. *)
Inductive failed_calls (E : env) (topic category : json) : list call -> Prop :=
| failed_before : failed_calls E topic category []
| failed_article prompt :
    failed_calls E topic category [InvokeModel (BEDROCK_MODEL_ID E) prompt]
| failed_meta prompt meta_prompt :
    failed_calls E topic category
      [ InvokeModel (BEDROCK_MODEL_ID E) prompt;
        InvokeModel (BEDROCK_MODEL_ID E) meta_prompt ]
| failed_write prompt meta_prompt filename html :
    generate_filename E topic category = Ok filename ->
    failed_calls E topic category
      [ InvokeModel (BEDROCK_MODEL_ID E) prompt;
        InvokeModel (BEDROCK_MODEL_ID E) meta_prompt;
        PutObject (OUTPUT_BUCKET E) ("output/" ++ filename) html ].

(** [traced E pairs generated failed calls]: [batch], with the calls each
    pair made, in order.  A pair in [generated] made two calls to the model
    and wrote its page under the key its record carries. *)
Inductive traced (E : env)
  : list (json * json) -> list json -> list json -> list call -> Prop :=
| traced_nil : traced E [] [] [] []
| traced_generated topic category prompt meta_prompt filename html created_at
    pairs generated failed calls :
    generate_filename E topic category = Ok filename ->
    traced E pairs generated failed calls ->
    traced E ((topic, category) :: pairs)
      (generated_record topic category ("output/" ++ filename) created_at
       :: generated)
      failed
      ([ InvokeModel (BEDROCK_MODEL_ID E) prompt;
         InvokeModel (BEDROCK_MODEL_ID E) meta_prompt;
         PutObject (OUTPUT_BUCKET E) ("output/" ++ filename) html ]
       ++ calls)%list
| traced_failed topic category e pair_calls pairs generated failed calls :
    failed_calls E topic category pair_calls ->
    traced E pairs generated failed calls ->
    traced E ((topic, category) :: pairs)
      generated
      (failure_record topic category e :: failed)
      (pair_calls ++ calls)%list.

(** ** A small world to run the handler in *)

Module Demo.

Definition quoted (s : string) : string := "'" ++ s ++ "'".

Fixpoint join (sep : string) (l : list string) : string :=
  match l with
  | [] => ""
  | [x] => x
  | x :: l' => x ++ sep ++ join sep l'
  end.

(** [repr] of scalars and of lists of scalars; strings are quoted as they
    are, which is what Python prints for plain words. *)
Definition repr_scalar (v : json) : string :=
  match v with
  | JNull => "None"
  | JBool true => "True"
  | JBool false => "False"
  | JNum n => if (n <? 0)%Z then "-" ++ str_of_nat (Z.to_nat (- n))
              else str_of_nat (Z.to_nat n)
  | JStr s => quoted s
  | JArr _ => "[...]"
  | JObj _ => "{...}"
  end.

Definition repr (v : json) : string :=
  match v with
  | JArr l => "[" ++ join ", " (map repr_scalar l) ++ "]"
  | _ => repr_scalar v
  end.

(** Replaces the first [{topic}] of a template. *)
Fixpoint fill (template topic : string) : string :=
  match template with
  | EmptyString => EmptyString
  | String c rest =>
      if prefix "{topic}" template
      then topic ++ substring 7 (String.length template - 7) template
      else String c (fill rest topic)
  end.

Definition completion (text : string) : json :=
  JObj [ ("content", JArr [ JObj [ ("type", JStr "text");
                                   ("text", JStr text) ] ]) ].

Definition request_text : string :=
  "{" ++ dquote ++ "topics" ++ dquote ++ ": [" ++ dquote ++ "Moon Landing"
  ++ dquote ++ ", " ++ dquote ++ "Tea" ++ dquote ++ "], " ++ dquote
  ++ "categories" ++ dquote ++ ": [" ++ dquote ++ "facts" ++ dquote ++ ", "
  ++ dquote ++ "history" ++ dquote ++ "]}".

Definition request_value : json :=
  JObj [ ("topics", JArr [JStr "Moon Landing"; JStr "Tea"]);
         ("categories", JArr [JStr "facts"; JStr "history"]) ].

(** Parses the two texts the examples send. *)
Definition loads (text : string) : pyres json :=
  if String.eqb text "{}" then Ok (JObj [])
  else if String.eqb text request_text then Ok request_value
  else Raise (Exn JSONDecodeError "Expecting value: line 1 column 1 (char 0)").

(** Accepts text made of ASCII bytes only. *)
Definition ascii_text (bytes : string) : option string :=
  if Str.all Base64.is_ascii bytes then Some bytes else None.

(** An API that answers every prompt with [text]. *)
Definition steady (text : string) (log : list call) (modelId prompt : string)
    : pyres json :=
  Ok (completion text).

(** An API that is throttled from its [n]-th call on. *)
Definition throttled (n : nat) (log : list call) (modelId prompt : string)
    : pyres json :=
  if (List.length log <? n)%nat then Ok (completion "A short summary.")
  else Raise (Exn ClientError "ThrottlingException").

Definition world (bucket : string)
    (api : list call -> string -> string -> pyres json) : env :=
  {| CATEGORY_CONFIG :=
       [ ("facts", {| name := "Interesting Facts";
                      prompt_template := "Write facts about {topic}." |});
         ("history", {| name := "History";
                        prompt_template := "Tell the history of {topic}." |}) ];
     OUTPUT_BUCKET := bucket;
     BEDROCK_MODEL_ID := "anthropic.claude-3-haiku-20240307-v1:0";
     json_loads := loads;
     decode_utf8 := ascii_text;
     py_repr := repr;
     str_format := fun template topic =>
       Ok (fill template (match topic with JStr s => s | _ => repr topic end));
     render_html_page := fun topic category category_name content meta =>
       Ok ("<html><head><title>" ++ category_name ++ "</title></head></html>");
     invoke_model := api;
     put_object := fun log Bucket Key Body => Ok tt;
     utcnow_isoformat := fun log => "2024-05-01T12:00:00" |}.

(** Events in the two gateway formats. *)
Definition v2_event : dict :=
  [ ("version", JStr "2.0");
    ("requestContext", JObj [("http", JObj [("method", JStr "PUT")])]);
    ("httpMethod", JStr "POST") ].

Definition v1_event : dict :=
  [ ("requestContext", JObj [("stage", JStr "prod")]);
    ("httpMethod", JStr "DELETE") ].

(** A completion of 500 characters, 400 of them trailing spaces. *)
Definition padded_text : string := Str.repeat "a" 100 ++ Str.repeat " " 400.

(** An API that is down. *)
Definition down (log : list call) (modelId prompt : string) : pyres json :=
  Raise (Exn ClientError "ServiceUnavailableException").

(** The world in which every call succeeds. *)
Definition pages : env := world "pages" (steady "A page.").

Definition post (body : json) : dict :=
  [ ("httpMethod", JStr "POST"); ("body", body) ].

(** The request of the examples, and the same with an empty body encoded in
    base64. *)
Definition request : dict := post (JStr request_text).

Definition encoded_request : dict :=
  [ ("httpMethod", JStr "POST"); ("body", JStr "e30=");
    ("isBase64Encoded", JBool true) ].

(** A request whose body is flagged as base64 and is not. *)
Definition garbled_request : dict :=
  [ ("httpMethod", JStr "POST"); ("body", JStr "a");
    ("isBase64Encoded", JBool true) ].

(** A request whose only category is a list. *)
Definition nested_text : string :=
  "{" ++ dquote ++ "topics" ++ dquote ++ ": [" ++ dquote ++ "Tea" ++ dquote
  ++ "], " ++ dquote ++ "categories" ++ dquote ++ ": [[" ++ dquote ++ "facts"
  ++ dquote ++ "]]}".

(** Parses, beside the texts of [loads], the three texts the malformed
    requests of the examples send. *)
Definition loads_more (text : string) : pyres json :=
  if String.eqb text "null" then Ok JNull
  else if String.eqb text "[]" then Ok (JArr [])
  else if String.eqb text nested_text then
    Ok (JObj [ ("topics", JArr [JStr "Tea"]);
               ("categories", JArr [JArr [JStr "facts"]]) ])
  else loads text.

(** [pages], reading those texts too. *)
Definition reader : env :=
  {| CATEGORY_CONFIG := CATEGORY_CONFIG pages;
     OUTPUT_BUCKET := OUTPUT_BUCKET pages;
     BEDROCK_MODEL_ID := BEDROCK_MODEL_ID pages;
     json_loads := loads_more;
     decode_utf8 := decode_utf8 pages;
     py_repr := py_repr pages;
     str_format := str_format pages;
     render_html_page := render_html_page pages;
     invoke_model := invoke_model pages;
     put_object := put_object pages;
     utcnow_isoformat := utcnow_isoformat pages |}.

Definition topics : list string := ["Moon Landing"; "Tea"].
Definition categories : list string := ["facts"; "history"].

End Demo.

(** * Properties *)

(** ** Strings *)

Module StrFacts.
Import Str.

Lemma all_impl (p q : ascii -> bool) s :
  (forall c, p c = true -> q c = true) -> all p s = true -> all q s = true.
Proof.
  intros Hpq. induction s as [|c s IH]; simpl; auto.
  rewrite !andb_true_iff. intros [Hc Hs]. auto.
Qed.

Lemma all_lstrip p q s : all q s = true -> all q (lstrip p s) = true.
Proof.
  induction s as [|c s IH]; simpl; auto.
  intros H. destruct (p c); auto.
  apply andb_true_iff in H. tauto.
Qed.

Lemma all_rstrip p q s : all q s = true -> all q (rstrip p s) = true.
Proof.
  induction s as [|c s IH]; simpl; auto.
  rewrite andb_true_iff. intros [Hc Hs]. specialize (IH Hs).
  destruct (rstrip p s) as [|c' r].
  - destruct (p c); simpl; auto. now rewrite Hc.
  - simpl in *. now rewrite Hc.
Qed.

Lemma all_take q n s : all q s = true -> all q (take n s) = true.
Proof.
  revert s. induction n as [|n IH]; intros [|c s]; simpl; auto.
  rewrite !andb_true_iff. intros [Hc Hs]. auto.
Qed.

Lemma length_take n s : String.length (take n s) <= n.
Proof.
  revert s. induction n as [|n IH]; intros [|c s]; simpl; try lia.
  specialize (IH s). lia.
Qed.

Lemma take_all n s : String.length s <= n -> take n s = s.
Proof.
  revert s. induction n as [|n IH]; intros [|c s]; simpl; intros H;
    try reflexivity; try lia.
  f_equal. apply IH. lia.
Qed.

Lemma length_take_exact n s : n <= String.length s -> String.length (take n s) = n.
Proof.
  revert s. induction n as [|n IH]; intros [|c s]; simpl; intros H;
    try reflexivity; try lia.
  f_equal. apply IH. lia.
Qed.

Lemma first_take n s c : first (take n s) = Some c -> first s = Some c.
Proof. destruct n, s; simpl; congruence. Qed.

Lemma first_lstrip p s c : first (lstrip p s) = Some c -> p c = false.
Proof.
  induction s as [|a s IH]; simpl; try discriminate.
  destruct (p a) eqn:Ha; auto. simpl. congruence.
Qed.

Lemma first_rstrip p s c : first (rstrip p s) = Some c -> first s = Some c.
Proof.
  destruct s as [|a s]; simpl; auto.
  destruct (rstrip p s); [destruct (p a)|]; simpl; congruence.
Qed.

Lemma last_rstrip p s c : last (rstrip p s) = Some c -> p c = false.
Proof.
  induction s as [|a s IH]; simpl; try discriminate.
  destruct (rstrip p s) as [|b r] eqn:Hr.
  - destruct (p a) eqn:Ha; simpl; congruence.
  - exact IH.
Qed.

Lemma all_sub_runs b s :
  all (fun c => is_alnum c || is_hyphen c) (sub_runs b s) = true.
Proof.
  revert b. induction s as [|c s IH]; intros b; simpl; auto.
  destruct (is_alnum c) eqn:Hc.
  - simpl. now rewrite Hc, IH.
  - destruct b; auto. simpl. now rewrite IH.
Qed.

Lemma slug_char_not_upper c :
  is_alnum c || is_hyphen c = true -> lower_char c = c.
Proof.
  destruct c as [[] [] [] [] [] [] [] []]; vm_compute; congruence.
Qed.

Lemma lower_fixed s :
  all (fun c => is_alnum c || is_hyphen c) s = true -> lower s = s.
Proof.
  induction s as [|c s IH]; simpl; auto.
  rewrite andb_true_iff. intros [Hc Hs].
  now rewrite slug_char_not_upper, IH.
Qed.

End StrFacts.

(** ** [slugify] *)

Lemma uncut_slug_chars text : Str.all is_slug_char (uncut text) = true.
Proof.
  unfold uncut, Str.strip, Str.re_sub_non_alnum.
  apply StrFacts.all_rstrip, StrFacts.all_lstrip, StrFacts.all_sub_runs.
Qed.

(** C2, the claim as written fails: a text whose hundredth slug character is
    the hyphen of a run gets a slug that ends with that hyphen, because the
    hyphens are stripped before the cut. *)
Lemma slugify_cut_leaves_hyphen :
  slugify (Str.repeat "a" 99 ++ " b") = Str.repeat "a" 99 ++ "-"
  /\ Str.last (slugify (Str.repeat "a" 99 ++ " b")) = Some Str.hyphen.
Proof. split; reflexivity. Qed.

(** C2 (amended): for every text, [slugify] is lower-case, stripped of the
    characters outside [[a-z0-9-]], at most 100 characters long and without a
    leading hyphen; it has no trailing hyphen whenever the stripped slug fits
    in 100 characters.  It is the text lowered, with every run outside
    [[a-z0-9]] collapsed to one hyphen, stripped of hyphens at both ends and
    then cut at 100; the two examples of the specification evaluate as
    given. *)
Theorem slugify_spec (text : string) :
  slugify text = Str.take 100 (uncut text)
  /\ Str.all is_slug_char (slugify text) = true
  /\ Str.lower (slugify text) = slugify text
  /\ String.length (slugify text) <= 100
  /\ Str.first (slugify text) <> Some Str.hyphen
  /\ (String.length (uncut text) <= 100 ->
      Str.last (slugify text) <> Some Str.hyphen)
  /\ slugify "Hello, World! 2024" = "hello-world-2024"
  /\ slugify "" = "".
Proof.
  assert (Hchars : Str.all is_slug_char (slugify text) = true)
    by apply StrFacts.all_take, uncut_slug_chars.
  repeat split; try reflexivity.
  - exact Hchars.
  - now apply StrFacts.lower_fixed.
  - apply StrFacts.length_take.
  - intros H. unfold slugify in H.
    apply StrFacts.first_take, StrFacts.first_rstrip, StrFacts.first_lstrip in H.
    discriminate.
  - intros Hfit H. unfold slugify in H.
    rewrite StrFacts.take_all in H by exact Hfit.
    apply StrFacts.last_rstrip in H. discriminate.
Qed.

Lemma slugify_spec_witness :
  String.length (uncut "Hello, World! 2024") <= 100
  /\ Str.last (slugify "Hello, World! 2024") <> Some Str.hyphen.
Proof.
  assert (Hfit : String.length (uncut "Hello, World! 2024") <= 100)
    by (vm_compute; lia).
  split; [exact Hfit|].
  destruct (slugify_spec "Hello, World! 2024") as (_ & _ & _ & _ & _ & H & _).
  exact (H Hfit).
Defined.

(** ** [get_http_method] *)

(** C9, the claim as written fails: an event with a routing context whose
    [http] object has no [method] does not fall back to the top-level
    [httpMethod]; the default answers instead. *)
Lemma get_http_method_no_fallback :
  get_http_method [ ("requestContext", JObj [("http", JObj [])]);
                    ("httpMethod", JStr "POST") ]
  = Ok (JStr "GET").
Proof. reflexivity. Qed.

(** C9 (amended): when the event's [requestContext] is an object with an
    [http] object, [get_http_method] returns that object's [method], and
    ["GET"] when it has none; when there is no [requestContext], or it is an
    object without [http], it returns the top-level [httpMethod], and ["GET"]
    when there is none.  Both events of the specification yield ["POST"]. *)
Theorem get_http_method_spec (event : dict) :
  (forall ctx http,
      dict_lookup "requestContext" event = Some (JObj ctx) ->
      dict_lookup "http" ctx = Some (JObj http) ->
      get_http_method event = Ok (dict_get "method" (JStr "GET") http))
  /\ (forall ctx,
      dict_lookup "requestContext" event = Some (JObj ctx) ->
      dict_lookup "http" ctx = None ->
      get_http_method event = Ok (dict_get "httpMethod" (JStr "GET") event))
  /\ (dict_lookup "requestContext" event = None ->
      get_http_method event = Ok (dict_get "httpMethod" (JStr "GET") event))
  /\ (dict_lookup "requestContext" event = None ->
      dict_lookup "httpMethod" event = None ->
      get_http_method event = Ok (JStr "GET"))
  /\ get_http_method [("httpMethod", JStr "POST")] = Ok (JStr "POST")
  /\ get_http_method
       [("requestContext", JObj [("http", JObj [("method", JStr "POST")])])]
     = Ok (JStr "POST").
Proof.
  unfold get_http_method, dict_mem, dict_get, dict_getitem.
  repeat split; try reflexivity.
  - intros ctx http Hctx Hhttp. rewrite Hctx. simpl.
    unfold dict_mem, dict_getitem. rewrite Hhttp. reflexivity.
  - intros ctx Hctx Hhttp. rewrite Hctx. simpl.
    unfold dict_mem. rewrite Hhttp. reflexivity.
  - intros Hctx. rewrite Hctx. reflexivity.
  - intros Hctx Hm. rewrite Hctx, Hm. reflexivity.
Qed.

Lemma get_http_method_spec_witness :
  get_http_method Demo.v2_event = Ok (JStr "PUT")
  /\ get_http_method Demo.v1_event = Ok (JStr "DELETE")
  /\ get_http_method [("body", JNull)] = Ok (JStr "GET").
Proof.
  split; [|split].
  - exact (proj1 (get_http_method_spec Demo.v2_event)
             [("http", JObj [("method", JStr "PUT")])]
             [("method", JStr "PUT")] eq_refl eq_refl).
  - exact (proj1 (proj2 (get_http_method_spec Demo.v1_event))
             [("stage", JStr "prod")] eq_refl eq_refl).
  - exact (proj1 (proj2 (proj2 (proj2 (get_http_method_spec [("body", JNull)]))))
             eq_refl eq_refl).
Defined.

(** ** [parse_request_body] *)

Section ParseRequestBody.

Variable E : env.

Lemma parse_plain (event : dict) :
  py_truthy (dict_get "isBase64Encoded" (JBool false) event)
  && py_truthy (dict_get "body" (JStr "{}") event) = false ->
  parse_request_body E event
  = match dict_get "body" (JStr "{}") event with
    | JStr text => loads_or_empty E text
    | body => Ok (if py_truthy body then body else JObj [])
    end.
Proof.
  intros H. unfold parse_request_body. rewrite H. simpl.
  destruct (dict_get "body" (JStr "{}") event); reflexivity.
Qed.

Lemma parse_encoded (event : dict) :
  py_truthy (dict_get "isBase64Encoded" (JBool false) event)
  && py_truthy (dict_get "body" (JStr "{}") event) = true ->
  parse_request_body E event
  = match Base64.b64decode (dict_get "body" (JStr "{}") event) with
    | Ok bytes =>
        match decode_utf8 E bytes with
        | Some text => loads_or_empty E text
        | None => Raise (Exn UnicodeDecodeError
                           "'utf-8' codec can't decode bytes")
        end
    | Raise e => Raise e
    end.
Proof.
  intros H. unfold parse_request_body. rewrite H.
  destruct (Base64.b64decode _); simpl; try reflexivity.
  destruct (decode_utf8 E a); reflexivity.
Qed.

Lemma loads_or_empty_valid text v :
  json_loads E text = Ok v -> loads_or_empty E text = Ok v.
Proof. unfold loads_or_empty. now intros ->. Qed.

Lemma loads_or_empty_invalid text message :
  json_loads E text = Raise (Exn JSONDecodeError message) ->
  loads_or_empty E text = Ok (JObj []).
Proof. unfold loads_or_empty. now intros ->. Qed.

End ParseRequestBody.

(** C3, the claim as written fails: a body flagged as base64 that is not
    base64 makes [parse_request_body] raise, since only the JSON parse sits
    in the [try]. *)
Lemma parse_request_body_raises :
  parse_request_body Demo.pages
    [ ("body", JStr "a"); ("isBase64Encoded", JBool true) ]
  = Raise (Exn BinasciiError
      "Invalid base64-encoded string: number of data characters (1) cannot be 1 more than a multiple of 4").
Proof. reflexivity. Qed.

(** C3 (amended): [parse_request_body] returns what the [try] around
    [json.loads] returns, applied to the body text when the body is not
    flagged as base64, and to the decoded text when a flagged body decodes
    from base64 to UTF-8 text.  That is the parsed value for a text that is
    valid JSON and the empty object when [json.loads] raises
    [JSONDecodeError], so that it does not raise when [json.loads] does one
    or the other.  An absent body yields the empty object, and an unflagged
    body that is no string is returned as it is, the empty object standing
    in for a falsy one.  An empty or otherwise falsy body is not decoded,
    whatever the flag says: the empty string goes to [json.loads] and any
    other falsy body yields the empty object. *)
Theorem parse_request_body_spec (E : env) (event : dict) :
  let flagged := py_truthy (dict_get "isBase64Encoded" (JBool false) event) in
  (forall text,
      flagged = false ->
      dict_lookup "body" event = Some (JStr text) ->
      parse_request_body E event = loads_or_empty E text)
  /\ (forall text bytes decoded,
      flagged = true ->
      dict_lookup "body" event = Some (JStr text) ->
      text <> "" ->
      Base64.b64decode (JStr text) = Ok bytes ->
      decode_utf8 E bytes = Some decoded ->
      parse_request_body E event = loads_or_empty E decoded)
  /\ (forall text v,
      json_loads E text = Ok v -> loads_or_empty E text = Ok v)
  /\ (forall text message,
      json_loads E text = Raise (Exn JSONDecodeError message) ->
      loads_or_empty E text = Ok (JObj []))
  /\ (json_loads E "{}" = Ok (JObj []) ->
      decode_utf8 E "" = Some "" ->
      (exists message, json_loads E "" = Raise (Exn JSONDecodeError message)) ->
      dict_lookup "body" event = None ->
      parse_request_body E event = Ok (JObj []))
  /\ (forall body,
      flagged = false ->
      dict_lookup "body" event = Some body ->
      (forall text, body <> JStr text) ->
      parse_request_body E event
      = Ok (if py_truthy body then body else JObj []))
  /\ (forall body,
      dict_lookup "body" event = Some body ->
      py_truthy body = false ->
      parse_request_body E event
      = match body with
        | JStr _ => loads_or_empty E ""
        | _ => Ok (JObj [])
        end)
  /\ (forall text,
      (exists v, json_loads E text = Ok v)
      \/ (exists message,
            json_loads E text = Raise (Exn JSONDecodeError message)) ->
      exists v, loads_or_empty E text = Ok v).
Proof.
  cbv zeta.
  repeat split.
  - intros text Hflag Hbody. rewrite parse_plain.
    + unfold dict_get. now rewrite Hbody.
    + now rewrite Hflag.
  - intros text bytes decoded Hflag Hbody Hne Hb64 Hutf. rewrite parse_encoded.
    + unfold dict_get. rewrite Hbody, Hb64, Hutf. reflexivity.
    + rewrite Hflag. unfold dict_get. rewrite Hbody. simpl.
      destruct (String.eqb_spec text ""); [contradiction|reflexivity].
  - apply loads_or_empty_valid.
  - apply loads_or_empty_invalid.
  - intros Hloads Hutf [message Hempty] Hbody.
    destruct (py_truthy (dict_get "isBase64Encoded" (JBool false) event))
      eqn:Hflag.
    + rewrite parse_encoded.
      * unfold dict_get. rewrite Hbody. simpl. rewrite Hutf.
        now apply loads_or_empty_invalid with message.
      * rewrite Hflag. unfold dict_get. now rewrite Hbody.
    + rewrite parse_plain.
      * unfold dict_get. rewrite Hbody. now apply loads_or_empty_valid.
      * now rewrite Hflag.
  - intros body Hflag Hbody Hnostr. rewrite parse_plain.
    + unfold dict_get. rewrite Hbody.
      destruct body; try reflexivity. now destruct (Hnostr s).
    + now rewrite Hflag.
  - intros body Hbody Hfalsy. rewrite parse_plain.
    + unfold dict_get. rewrite Hbody.
      destruct body as [|b|n|s|l|d]; simpl in Hfalsy |- *;
        rewrite ?Hfalsy; try reflexivity.
      apply negb_false_iff, String.eqb_eq in Hfalsy. now subst s.
    + unfold dict_get. rewrite Hbody, Hfalsy. apply andb_false_r.
  - intros text [(v & Hv) | (message & Hm)].
    + exists v. now apply loads_or_empty_valid.
    + exists (JObj []). now apply loads_or_empty_invalid with message.
Qed.

(** ** [generate_content] *)

Section GenerateContent.

Variable E : env.

Lemma generate_content_known topic category cfg prompt c meta log log1 log2 :
  config_lookup E category = Ok (Some cfg) ->
  str_format E (prompt_template cfg) topic = Ok prompt ->
  generate_with_bedrock E (prompt ++ html_instructions) log = (Ok c, log1) ->
  generate_with_bedrock E (meta_prompt_for E topic cfg) log1 = (Ok meta, log2) ->
  generate_content E topic category log
  = (match py_strip meta with
     | Ok stripped => Ok {| content := c;
                            meta_description := Str.take 160 stripped;
                            category_name := name cfg |}
     | Raise e => Raise e
     end, log2).
Proof.
  intros Hcfg Hfmt Hc Hm.
  unfold generate_content, bind, lift, ret.
  rewrite Hcfg, Hfmt, Hc, Hm.
  destruct (py_strip meta); reflexivity.
Qed.

End GenerateContent.

(** C8, the claim as written fails: a completion of 500 characters of which
    the last 400 are spaces is trimmed to 100 characters, so its meta
    description has 100 characters, not 160. *)
Lemma padded_completion_meta_description :
  String.length Demo.padded_text = 500
  /\ exists r log,
      generate_content (Demo.world "pages" (Demo.steady Demo.padded_text))
        (JStr "Tea") (JStr "facts") []
      = (Ok r, log)
      /\ String.length (meta_description r) = 100.
Proof.
  split; [reflexivity|].
  eexists. eexists. split; [vm_compute; reflexivity|reflexivity].
Qed.

(** C8 (amended): whatever text the API returns for the meta-description
    prompt, [generate_content] returns with the text stripped of surrounding
    whitespace and cut at 160 characters as [meta_description], which thus
    has at most 160 characters; it has exactly 160 when the stripped text has
    at least 160, as a completion of 500 characters without surrounding
    whitespace does. *)
Theorem generate_content_meta_description
    (E : env) (topic category : json) (cfg : category_config)
    (prompt : string) (c : json) (text : string) (log log1 log2 : list call) :
  config_lookup E category = Ok (Some cfg) ->
  str_format E (prompt_template cfg) topic = Ok prompt ->
  generate_with_bedrock E (prompt ++ html_instructions) log = (Ok c, log1) ->
  generate_with_bedrock E (meta_prompt_for E topic cfg) log1
  = (Ok (JStr text), log2) ->
  let stripped := Str.strip Str.is_space text in
  generate_content E topic category log
  = (Ok {| content := c;
           meta_description := Str.take 160 stripped;
           category_name := name cfg |}, log2)
  /\ String.length (Str.take 160 stripped) <= 160
  /\ (160 <= String.length stripped ->
      String.length (Str.take 160 stripped) = 160)
  /\ (String.length text = 500 -> stripped = text ->
      String.length (Str.take 160 stripped) = 160).
Proof.
  intros Hcfg Hfmt Hc Hm stripped.
  split; [|split; [|split]].
  - now rewrite (generate_content_known E _ _ _ _ _ _ _ _ _ Hcfg Hfmt Hc Hm).
  - apply StrFacts.length_take.
  - apply StrFacts.length_take_exact.
  - intros Hlen Hsame. apply StrFacts.length_take_exact.
    rewrite Hsame, Hlen. lia.
Qed.

(** ** The batch loop *)

Local Open Scope list_scope.

Lemma for_each_ext {A S : Type} (xs : list A) (f g : A -> S -> M S) :
  (forall x s log, f x s log = g x s log) ->
  forall s log, for_each xs f s log = for_each xs g s log.
Proof.
  intros Hfg. induction xs as [|x xs IH]; intros s log; simpl; auto.
  unfold bind. rewrite Hfg. destruct (g x s log) as [[s'|e] log']; auto.
Qed.

Lemma batch_app pairs1 generated1 failed1 pairs2 generated2 failed2 :
  batch pairs1 generated1 failed1 ->
  batch pairs2 generated2 failed2 ->
  batch (pairs1 ++ pairs2) (generated1 ++ generated2) (failed1 ++ failed2).
Proof.
  induction 1; intros H2; simpl; auto using batch.
Qed.

Lemma batch_length pairs generated failed :
  batch pairs generated failed ->
  List.length generated + List.length failed = List.length pairs.
Proof. induction 1; simpl; lia. Qed.



Section Batch.

Variable E : env.

(** The [try] block either appends a page record or hands its exception to
    the handler, which appends a failure record: it never raises. *)
Lemma process_pair_cases topic category acc log :
  exists log',
    (exists s3_key created_at,
        process_pair E topic category acc log
        = (Ok (fst acc ++ [generated_record topic category s3_key created_at],
               snd acc), log'))
    \/ (exists e,
        process_pair E topic category acc log
        = (Ok (fst acc, snd acc ++ [failure_record topic category e]), log')).
Proof.
  unfold process_pair, attempt_pair, try_except, bind, ret, utcnow.
  destruct (generate_content E topic category log) as [[r|e] log1].
  - destruct (save_to_s3 E topic category (content r) (meta_description r)
                (category_name r) log1) as [[key|e] log2].
    + exists log2. left. eauto.
    + exists log2. right. eauto.
  - exists log1. right. eauto.
Qed.

Lemma categories_loop topic cs : forall acc log,
  exists generated failed log',
    for_each cs (process_pair E topic) acc log
    = (Ok (fst acc ++ generated, snd acc ++ failed), log')
    /\ batch (map (pair topic) cs) generated failed.
Proof.
  induction cs as [|c cs IH]; intros acc log; simpl.
  - exists [], [], log. unfold ret. rewrite !app_nil_r.
    destruct acc; split; [reflexivity|constructor].
  - unfold bind.
    destruct (process_pair_cases topic c acc log)
      as (log1 & [(key & at_ & Hp) | (e & Hp)]); rewrite Hp;
      match goal with |- context [for_each cs _ ?a ?l] =>
        destruct (IH a l) as (g & f & log2 & Hloop & Hb) end;
      rewrite Hloop; simpl.
    + exists (generated_record topic c key at_ :: g), f, log2.
      rewrite <- app_assoc. split; [reflexivity|now constructor].
    + exists g, (failure_record topic c e :: f), log2.
      rewrite <- app_assoc. split; [reflexivity|now constructor].
Qed.

Lemma topics_loop ts cs : forall acc log,
  exists generated failed log',
    for_each ts (fun topic acc => for_each cs (process_pair E topic) acc)
      acc log
    = (Ok (fst acc ++ generated, snd acc ++ failed), log')
    /\ batch (list_prod ts cs) generated failed.
Proof.
  induction ts as [|t ts IH]; intros acc log; simpl.
  - exists [], [], log. unfold ret. rewrite !app_nil_r.
    destruct acc; split; [reflexivity|constructor].
  - unfold bind.
    destruct (categories_loop t cs acc log) as (g1 & f1 & log1 & H1 & B1).
    rewrite H1.
    destruct (IH (fst acc ++ g1, snd acc ++ f1) log1)
      as (g2 & f2 & log2 & H2 & B2).
    rewrite H2. simpl.
    exists (g1 ++ g2), (f1 ++ f2), log2.
    rewrite !app_assoc. split; [reflexivity|now apply batch_app].
Qed.

(** Hashable categories are sorted into known and unknown without raising. *)
Lemma reject_unknown_hashable cs :
  Forall (fun c => hashable c = true) cs ->
  reject_unknown E cs = Ok (filter (fun c => negb (known E c)) cs).
Proof.
  induction 1 as [|c cs Hc _ IH]; simpl; auto.
  rewrite IH. unfold in_config, config_lookup, known.
  destruct c; try discriminate; simpl; try reflexivity.
  destruct (config_find s (CATEGORY_CONFIG E)); reflexivity.
Qed.

Lemma known_hashable c : known E c = true -> hashable c = true.
Proof. destruct c; simpl; congruence. Qed.

Lemma reject_unknown_known cs :
  Forall (fun c => known E c = true) cs -> reject_unknown E cs = Ok [].
Proof.
  intros H. rewrite reject_unknown_hashable.
  - f_equal. induction H as [|c cs Hc _ IH]; simpl; auto. now rewrite Hc.
  - eapply Forall_impl; [|exact H]. apply known_hashable.
Qed.

(** The handler once validation has passed: the double loop, then the
    response built from the two lists. *)
Lemma handler_processing event body topics categories ts cs log :
  get_http_method event = Ok (JStr "POST") ->
  parse_request_body E event = Ok body ->
  py_get body "topics" (JArr []) = Ok topics ->
  py_get body "categories" (JArr []) = Ok categories ->
  py_truthy topics = true ->
  py_truthy categories = true ->
  py_iter topics = Ok ts ->
  py_iter categories = Ok cs ->
  reject_unknown E cs = Ok [] ->
  OUTPUT_BUCKET E <> "" ->
  handler E event log
  = match for_each ts
            (fun topic acc => for_each cs (process_pair E topic) acc)
            ([], []) log with
    | (Ok acc, log') =>
        (Ok (create_response 200 (batch_payload (fst acc) (snd acc)) None),
         log')
    | (Raise e, log') => (Raise e, log')
    end.
Proof.
  intros Hm Hbody Ht Hc Htt Hct Hts Hcs Hrej Hbucket.
  unfold handler, bind, lift, ret.
  rewrite Hm. simpl. rewrite Hbody, Ht, Hc, Htt, Hct. simpl.
  rewrite Hcs, Hrej. simpl.
  destruct (String.eqb_spec (OUTPUT_BUCKET E) ""); [contradiction|]. simpl.
  rewrite Hts.
  rewrite for_each_ext
    with (g := fun topic acc => for_each cs (process_pair E topic) acc).
  - match goal with |- context [for_each ts ?f ?a log] =>
      destruct (for_each ts f a log) as [[acc|e] log'] end; reflexivity.
  - intros x s0 log0. reflexivity.
Qed.

End Batch.

Section Requests.

Variable E : env.

Lemma valid_request_handler event ts cs log :
  valid_request E event ts cs ->
  exists generated failed log',
    handler E event log
    = (Ok (create_response 200 (batch_payload generated failed) None), log')
    /\ batch (list_prod ts cs) generated failed.
Proof.
  intros [Hm (body & topics & categories & Hb & Ht & Hc & Htt & Hct & Hts & Hcs)
            Hknown Hbucket].
  rewrite (handler_processing E event (JObj body) topics categories ts cs log);
    auto.
  - destruct (topics_loop E ts cs ([], []) log) as (g & f & log' & Hloop & Hb').
    rewrite Hloop. simpl. eauto.
  - simpl. now rewrite Ht.
  - simpl. now rewrite Hc.
  - now apply reject_unknown_known.
Qed.

End Requests.

Section Runs.

Variable E : env.





End Runs.

(** ** The claims on the handler's batch *)



(** C7: in the response to a request that passed validation, [success] is
    true exactly when [failed] is empty, [total_generated] is the length of
    [generated], and [message] gives the number of failures beside the number
    of pages when there are failures, and only the number of pages
    otherwise. *)
Theorem handler_derived_fields
    (E : env) (event : dict) (ts cs : list json) (log : list call) :
  valid_request E event ts cs ->
  exists generated failed log' payload,
    handler E event log = (Ok (create_response 200 payload None), log')
    /\ field "generated" payload = Some (JArr generated)
    /\ field "failed" payload = Some (JArr failed)
    /\ (exists success, field "success" payload = Some (JBool success)
                        /\ (success = true <-> failed = []))
    /\ field "total_generated" payload
       = Some (JNum (Z.of_nat (List.length generated)))
    /\ field "message" payload
       = Some (JStr match failed with
                    | [] => ("Successfully generated "
                             ++ str_of_nat (List.length generated)
                             ++ " pages.")%string
                    | _ :: _ => ("Generated "
                                 ++ str_of_nat (List.length generated)
                                 ++ " pages. "
                                 ++ str_of_nat (List.length failed)
                                 ++ " failed.")%string
                    end).
Proof.
  intros Hvalid.
  destruct (valid_request_handler E event ts cs log Hvalid)
    as (g & f & log' & Hh & _).
  exists g, f, log', (batch_payload g f). repeat split; auto.
  - exists (Nat.eqb (List.length f) 0). split; [reflexivity|].
    destruct f; simpl; split; congruence.
Qed.

(** ** Validation *)

Section Validation.

Variable E : env.

Lemma py_eq_str_true v s : py_eq_str v s = true <-> v = JStr s.
Proof.
  destruct v; simpl; split; try discriminate.
  - intros H. apply String.eqb_eq in H. now subst.
  - intros H. injection H as ->. apply String.eqb_refl.
Qed.

Lemma py_eq_str_false v s : v <> JStr s -> py_eq_str v s = false.
Proof.
  intros H. destruct (py_eq_str v s) eqn:Heq; auto.
  apply py_eq_str_true in Heq. contradiction.
Qed.

Lemma py_iter_nonempty v cs :
  py_iter v = Ok cs -> cs <> [] -> py_truthy v = true.
Proof.
  destruct v as [| | |s|l|d]; simpl; try discriminate;
    intros H; injection H as <-; intros Hne.
  - destruct s; [now elim Hne|reflexivity].
  - destruct l; [now elim Hne|reflexivity].
  - destruct d; [now elim Hne|reflexivity].
Qed.

(** Every run of the handler either makes no call at all, or is a run with
    a configured bucket that ends in the response of the batch. *)
Lemma handler_cases event log r log' :
  handler E event log = (r, log') ->
  log' = log
  \/ (OUTPUT_BUCKET E <> ""
      /\ exists generated failed,
          r = Ok (create_response 200 (batch_payload generated failed) None)).
Proof.
  unfold handler, bind, lift, ret.
  destruct (get_http_method event) as [m|e];
    [|intros H; inversion H; auto].
  destruct (py_eq_str m "OPTIONS"); [intros H; inversion H; auto|].
  destruct (negb (py_eq_str m "POST")); [intros H; inversion H; auto|].
  destruct (parse_request_body E event) as [body|e];
    [|intros H; inversion H; auto].
  destruct (py_get body "topics" (JArr [])) as [topics|e];
    [|intros H; inversion H; auto].
  destruct (py_get body "categories" (JArr [])) as [categories|e];
    [|intros H; inversion H; auto].
  destruct (negb (py_truthy topics)); [intros H; inversion H; auto|].
  destruct (negb (py_truthy categories)); [intros H; inversion H; auto|].
  destruct (py_iter categories) as [cs|e];
    [|intros H; inversion H; auto].
  destruct (reject_unknown E cs) as [invalid|e];
    [|intros H; inversion H; auto].
  destruct (py_truthy (JArr invalid)); [intros H; inversion H; auto|].
  destruct (negb (py_truthy (JStr (OUTPUT_BUCKET E)))) eqn:Hbucket;
    [intros H; inversion H; auto|].
  destruct (py_iter topics) as [ts|e];
    [|intros H; inversion H; auto].
  rewrite for_each_ext
    with (g := fun topic acc => for_each cs (process_pair E topic) acc)
    by reflexivity.
  destruct (topics_loop E ts cs ([], []) log) as (g & f & log1 & Hloop & _).
  rewrite Hloop. intros H. inversion H; subst. right. split.
  - intros Hempty. rewrite Hempty in Hbucket. discriminate.
  - simpl. eauto.
Qed.

End Validation.

(** C4, the claim as written fails: a POST whose body is the JSON text
    [null] or [[]] has no topics, and a POST whose category is a list has a
    category that is no key of the table, yet the handler raises on all
    three instead of answering 400, as it does on a body flagged as base64
    that is not; and a POST with neither topics nor categories is answered
    with the message about the topics only. *)
Lemma handler_validation_raises :
  handler Demo.reader (Demo.post (JStr "null")) []
  = (Raise (Exn AttributeError "'NoneType' object has no attribute 'get'"), [])
  /\ handler Demo.reader (Demo.post (JStr "[]")) []
     = (Raise (Exn AttributeError "'list' object has no attribute 'get'"), [])
  /\ handler Demo.reader (Demo.post (JStr Demo.nested_text)) []
     = (Raise (Exn TypeError "unhashable type: 'list'"), [])
  /\ (exists e, handler Demo.reader Demo.garbled_request [] = (Raise e, [])
                /\ exn_type e = BinasciiError)
  /\ handler Demo.reader (Demo.post (JStr "{}")) []
     = (Ok (create_response 400
              (JObj [("error", JStr "At least one topic is required")]) None),
        []).
Proof.
  repeat split. eexists. split; reflexivity.
Qed.

(** C4 (amended): the validation steps, in the order the handler takes them.  An
    OPTIONS request gets 200 with an empty object; a method that is neither
    OPTIONS nor POST gets 405 with [Method not allowed]; a POST whose body is
    an object gets 400 naming the topics when [topics] is empty; it gets 400
    when [categories] is empty, naming the categories unless the topics were
    named first; it gets 400 when the categories are strings, numbers,
    booleans or null and one of them is no key of the table, with the list
    of exactly those categories unless an earlier check answered;
    and it gets 500 when it passes these checks and the output bucket is not
    configured.  No call is made on the way. *)
Theorem handler_validation (E : env) (event : dict) (log : list call) :
  (get_http_method event = Ok (JStr "OPTIONS") ->
   handler E event log = (Ok (create_response 200 (JObj []) None), log))
  /\ (forall method,
      get_http_method event = Ok method ->
      method <> JStr "OPTIONS" -> method <> JStr "POST" ->
      handler E event log
      = (Ok (create_response 405
               (JObj [("error", JStr "Method not allowed")]) None), log))
  /\ (forall body,
      get_http_method event = Ok (JStr "POST") ->
      parse_request_body E event = Ok (JObj body) ->
      let topics := dict_get "topics" (JArr []) body in
      let categories := dict_get "categories" (JArr []) body in
      (py_truthy topics = false ->
       handler E event log
       = (Ok (create_response 400
                (JObj [("error", JStr "At least one topic is required")])
                None), log))
      /\ (py_truthy categories = false ->
          status (handler E event log) = Some 400%Z
          /\ (py_truthy topics = true ->
              handler E event log
              = (Ok (create_response 400
                       (JObj [("error",
                               JStr "At least one category is required")])
                       None), log)))
      /\ (forall cs,
          py_iter categories = Ok cs ->
          Forall (fun c => hashable c = true) cs ->
          let invalid := filter (fun c => negb (known E c)) cs in
          invalid <> [] ->
          status (handler E event log) = Some 400%Z
          /\ (py_truthy topics = true ->
              handler E event log
              = (Ok (create_response 400
                       (JObj [("error",
                               JStr ("Invalid categories: "
                                     ++ py_repr E (JArr invalid))%string)])
                       None), log)))
      /\ (forall cs,
          py_truthy topics = true -> py_truthy categories = true ->
          py_iter categories = Ok cs ->
          Forall (fun c => known E c = true) cs ->
          OUTPUT_BUCKET E = ""%string ->
          handler E event log
          = (Ok (create_response 500
                   (JObj [("error", JStr "OUTPUT_BUCKET_NAME not configured")])
                   None), log))).
Proof.
  split; [|split].
  - intros Hm. unfold handler, bind, lift, ret. now rewrite Hm.
  - intros method Hm Ho Hp. unfold handler, bind, lift, ret. rewrite Hm.
    now rewrite (py_eq_str_false _ _ Ho), (py_eq_str_false _ _ Hp).
  - intros body Hm Hbody topics categories.
    unfold status, handler, bind, lift, ret. rewrite Hm, Hbody. simpl.
    fold topics categories.
    split; [|split; [|split]].
    + intros Ht. now rewrite Ht.
    + intros Hc. rewrite Hc.
      split; [|intros Ht; now rewrite Ht].
      destruct (py_truthy topics); reflexivity.
    + intros cs Hcs Hhash Hinv.
      assert (Hc : py_truthy categories = true).
      { apply (py_iter_nonempty categories cs Hcs).
        intros ->. now apply Hinv. }
      rewrite Hc. simpl. rewrite Hcs.
      rewrite (reject_unknown_hashable E cs Hhash).
      destruct (filter (fun c => negb (known E c)) cs);
        [contradiction|].
      split; [|intros Ht; now rewrite Ht].
      destruct (py_truthy topics); reflexivity.
    + intros cs Ht Hc Hcs Hknown Hbucket.
      rewrite Ht, Hc. simpl. rewrite Hcs.
      rewrite (reject_unknown_known E cs Hknown). simpl.
      now rewrite Hbucket.
Qed.

(** C5: a request the validation rejects, with 405, 400 or 500, is answered
    without any call to the text-generation API or the object store, and so
    is every request when the output bucket is not configured; a run that
    raises before the batch starts makes no call either. *)
Theorem handler_rejects_without_calls
    (E : env) (event : dict) (log log' : list call) (r : pyres response) :
  handler E event log = (r, log') ->
  (forall resp, r = Ok resp -> statusCode resp <> 200%Z -> log' = log)
  /\ (OUTPUT_BUCKET E = ""%string -> log' = log)
  /\ (forall e, r = Raise e -> log' = log).
Proof.
  intros H.
  destruct (handler_cases E event log r log' H)
    as [Hlog | (Hbucket & g & f & Hr)].
  - auto.
  - subst r. repeat split.
    + intros resp Hresp Hstatus. injection Hresp as <-. now elim Hstatus.
    + intros Hempty. contradiction.
    + discriminate.
Qed.

(** What lies outside the validation steps: a body that parses to something
    else than an object, [topics] that is truthy but cannot be iterated, and
    a category that cannot be hashed make the handler raise, before any
    call. *)
Lemma handler_raises_outside_validation :
  handler Demo.pages (Demo.post (JArr [JStr "Tea"])) []
  = (Raise (Exn AttributeError "'list' object has no attribute 'get'"), [])
  /\ handler Demo.pages
       (Demo.post (JObj [ ("topics", JNum 5);
                          ("categories", JArr [JStr "facts"]) ])) []
     = (Raise (Exn TypeError "'int' object is not iterable"), [])
  /\ handler Demo.pages
       (Demo.post (JObj [ ("topics", JArr [JStr "Tea"]);
                          ("categories", JArr [JArr [JStr "facts"]]) ])) []
     = (Raise (Exn TypeError "unhashable type: 'list'"), []).
Proof. repeat split. Qed.

(** ** A batch in which every pair succeeds *)

Section AllSucceed.

Variable E : env.

Lemma save_to_s3_key t c content meta cname log key log' :
  save_to_s3 E (JStr t) (JStr c) content meta cname log = (Ok key, log') ->
  key = output_key t c.
Proof.
  unfold save_to_s3, bind, lift, ret. simpl.
  destruct (render_html_page E (JStr t) (JStr c) cname content meta);
    [|discriminate].
  destruct (put_object E log (OUTPUT_BUCKET E) _ a); [|discriminate].
  intros H. now inversion H.
Qed.

Lemma process_pair_success t c acc log :
  generation_succeeds E t c ->
  persistence_succeeds E t c ->
  exists created_at log',
    process_pair E (JStr t) (JStr c) acc log
    = (Ok (fst acc
           ++ [generated_record (JStr t) (JStr c) (output_key t c) created_at],
           snd acc), log').
Proof.
  intros Hgen Hsave.
  unfold process_pair, attempt_pair, try_except, bind, ret, utcnow.
  destruct (Hgen log) as (r & log1 & Hr). rewrite Hr.
  destruct (Hsave (content r) (meta_description r) (category_name r) log1)
    as (key & log2 & Hk).
  rewrite Hk. apply save_to_s3_key in Hk. subst key. eauto.
Qed.

Lemma categories_loop_success t cs :
  (forall c, In c cs -> generation_succeeds E t c /\ persistence_succeeds E t c) ->
  forall acc log, exists generated log',
    for_each (map JStr cs) (process_pair E (JStr t)) acc log
    = (Ok (fst acc ++ generated, snd acc), log')
    /\ map record_summary generated = map pair_summary (map (pair t) cs).
Proof.
  induction cs as [|c cs IH]; intros Hok acc log; simpl.
  - exists [], log. unfold ret. rewrite app_nil_r. now destruct acc.
  - unfold bind.
    destruct (Hok c (or_introl eq_refl)) as [Hgen Hsave].
    destruct (process_pair_success t c acc log Hgen Hsave)
      as (at_ & log1 & Hp).
    rewrite Hp.
    match goal with |- context [for_each _ _ ?a ?l] =>
      destruct (IH (fun c' H => Hok c' (or_intror H)) a l)
        as (g & log2 & Hloop & Hsum) end.
    rewrite Hloop. simpl.
    exists (generated_record (JStr t) (JStr c) (output_key t c) at_ :: g), log2.
    rewrite <- app_assoc. split; [reflexivity|].
    simpl. now rewrite Hsum.
Qed.

Lemma topics_loop_success ts cs :
  (forall t c, In t ts -> In c cs ->
               generation_succeeds E t c /\ persistence_succeeds E t c) ->
  forall acc log, exists generated log',
    for_each (map JStr ts)
      (fun topic acc => for_each (map JStr cs) (process_pair E topic) acc)
      acc log
    = (Ok (fst acc ++ generated, snd acc), log')
    /\ map record_summary generated = map pair_summary (list_prod ts cs).
Proof.
  induction ts as [|t ts IH]; intros Hok acc log; simpl.
  - exists [], log. unfold ret. rewrite app_nil_r. now destruct acc.
  - unfold bind.
    destruct (categories_loop_success t cs
                (fun c H => Hok t c (or_introl eq_refl) H) acc log)
      as (g1 & log1 & H1 & S1).
    rewrite H1.
    match goal with |- context [for_each _ _ ?a ?l] =>
      destruct (IH (fun t' c' Ht Hc => Hok t' c' (or_intror Ht) Hc) a l)
        as (g2 & log2 & H2 & S2) end.
    rewrite H2. simpl.
    exists (g1 ++ g2), log2. rewrite app_assoc. split; [reflexivity|].
    now rewrite !map_app, S1, S2.
Qed.

End AllSucceed.

(** C6: for a valid request over the topics [ts] and the categories [cs],
    when generation and persistence succeed for every pair, the response has
    [success = true], [failed = []] and [len(ts) * len(cs)] records in
    [generated]; these follow the pairs, topics in the outer loop and
    categories in the inner one, each with its topic, its category and the
    object key derived from them. *)
Theorem handler_all_succeed
    (E : env) (event : dict) (ts cs : list string) (log : list call) :
  valid_request E event (map JStr ts) (map JStr cs) ->
  (forall t c, In t ts -> In c cs ->
               generation_succeeds E t c /\ persistence_succeeds E t c) ->
  exists generated log' payload,
    handler E event log = (Ok (create_response 200 payload None), log')
    /\ field "success" payload = Some (JBool true)
    /\ field "failed" payload = Some (JArr [])
    /\ field "generated" payload = Some (JArr generated)
    /\ List.length generated = List.length ts * List.length cs
    /\ map record_summary generated = map pair_summary (list_prod ts cs).
Proof.
  intros [Hm (body & topics & categories & Hb & Ht & Hc & Htt & Hct & Hts & Hcs)
            Hknown Hbucket] Hok.
  destruct (topics_loop_success E ts cs Hok ([], []) log)
    as (g & log' & Hloop & Hsum).
  exists g, log', (batch_payload g []).
  split; [|repeat split; auto].
  - rewrite (handler_processing E event (JObj body) topics categories
               (map JStr ts) (map JStr cs) log); auto.
    + now rewrite Hloop.
    + simpl. now rewrite Ht.
    + simpl. now rewrite Hc.
    + now apply reject_unknown_known.
  - rewrite <- (length_map record_summary), Hsum, length_map.
    apply length_prod.
Qed.

(** ** The theorems at work on a concrete world *)

Lemma demo_request_valid bucket api :
  bucket <> ""%string ->
  valid_request (Demo.world bucket api) Demo.request
    (map JStr Demo.topics) (map JStr Demo.categories).
Proof.
  intros Hbucket. constructor.
  - reflexivity.
  - exists [ ("topics", JArr [JStr "Moon Landing"; JStr "Tea"]);
             ("categories", JArr [JStr "facts"; JStr "history"]) ]%string.
    do 2 eexists. repeat split; reflexivity.
  - repeat constructor.
  - exact Hbucket.
Qed.

Lemma pages_configured : "pages"%string <> ""%string.
Proof. discriminate. Qed.

Lemma demo_pairs_succeed text t c :
  In t Demo.topics -> In c Demo.categories ->
  generation_succeeds (Demo.world "pages" (Demo.steady text)) t c
  /\ persistence_succeeds (Demo.world "pages" (Demo.steady text)) t c.
Proof.
  intros Ht Hc. split.
  - intros log.
    destruct Hc as [<- | [<- | []]]; do 2 eexists;
      (erewrite generate_content_known by reflexivity); reflexivity.
  - intros content meta cname log. do 2 eexists.
    unfold save_to_s3, bind, lift, ret. simpl. reflexivity.
Qed.



Lemma handler_derived_fields_witness :
  exists payload success,
    fst (handler (Demo.world "pages" (Demo.throttled 3)) Demo.request [])
    = Ok (create_response 200 payload None)
    /\ field "success" payload = Some (JBool success).
Proof.
  destruct (handler_derived_fields _ _ _ _ []
              (demo_request_valid "pages" (Demo.throttled 3) pages_configured))
    as (g & f & log' & payload & Hh & _ & _ & (b & Hb & _) & _).
  exists payload, b. split; [now rewrite Hh|exact Hb].
Defined.

Lemma handler_all_succeed_witness :
  exists generated payload,
    fst (handler (Demo.world "pages" (Demo.steady "A page.")) Demo.request [])
    = Ok (create_response 200 payload None)
    /\ field "generated" payload = Some (JArr generated)
    /\ List.length generated = 4.
Proof.
  destruct (handler_all_succeed _ _ Demo.topics Demo.categories []
              (demo_request_valid "pages" (Demo.steady "A page.")
                 pages_configured)
              (demo_pairs_succeed "A page."))
    as (g & log' & payload & Hh & _ & _ & Hg & Hlen & _).
  exists g, payload. split; [now rewrite Hh|]. split; [exact Hg|exact Hlen].
Defined.

Lemma handler_rejects_without_calls_witness :
  snd (handler (Demo.world "" (Demo.steady "A page.")) Demo.request [])
  = []
  /\ snd (handler (Demo.world "pages" (Demo.steady "A page."))
            (Demo.post (JObj [("topics", JArr [JStr "Tea"])])) [])
     = [].
Proof.
  split.
  - destruct (handler (Demo.world "" (Demo.steady "A page.")) Demo.request [])
      as [r log'] eqn:H.
    exact (proj1 (proj2 (handler_rejects_without_calls _ _ _ _ _ H)) eq_refl).
  - refine (proj1 (handler_rejects_without_calls
                     (Demo.world "pages" (Demo.steady "A page."))
                     (Demo.post (JObj [("topics", JArr [JStr "Tea"])]))
                     [] _ _ eq_refl) _ eq_refl _).
    discriminate.
Defined.

Lemma handler_validation_witness :
  fst (handler Demo.pages [("httpMethod", JStr "OPTIONS")] [])
  = Ok (create_response 200 (JObj []) None)
  /\ status (handler Demo.pages Demo.v2_event []) = Some 405%Z
  /\ status (handler Demo.pages (Demo.post (JStr "not json")) []) = Some 400%Z
  /\ status (handler Demo.pages
               (Demo.post (JObj [("topics", JArr [JStr "Tea"])])) [])
     = Some 400%Z
  /\ fst (handler Demo.pages
            (Demo.post (JObj [ ("topics", JArr [JStr "Tea"]);
                               ("categories", JArr [JStr "bogus"; JStr "facts"]) ]))
            [])
     = Ok (create_response 400
             (JObj [("error", JStr "Invalid categories: ['bogus']")]) None)
  /\ fst (handler (Demo.world "" (Demo.steady "A page.")) Demo.request [])
     = Ok (create_response 500
             (JObj [("error", JStr "OUTPUT_BUCKET_NAME not configured")]) None).
Proof.
  split; [|split; [|split; [|split; [|split]]]].
  - match goal with |- fst (handler ?W ?ev []) = _ =>
      now rewrite (proj1 (handler_validation W ev []) eq_refl) end.
  - unfold status.
    rewrite (proj1 (proj2 (handler_validation Demo.pages Demo.v2_event []))
               (JStr "PUT") eq_refl); [reflexivity|discriminate|discriminate].
  - unfold status.
    match goal with |- context [handler ?W ?ev []] =>
      destruct (handler_validation W ev []) as (_ & _ & H) end.
    destruct (H [] eq_refl eq_refl) as (Htopics & _).
    now rewrite (Htopics eq_refl).
  - match goal with |- context [handler ?W ?ev []] =>
      destruct (handler_validation W ev []) as (_ & _ & H) end.
    destruct (H _ eq_refl eq_refl) as (_ & Hcategories & _).
    exact (proj1 (Hcategories eq_refl)).
  - match goal with |- fst (handler ?W ?ev []) = _ =>
      destruct (handler_validation W ev []) as (_ & _ & H) end.
    destruct (H _ eq_refl eq_refl) as (_ & _ & Hinvalid & _).
    destruct (Hinvalid [JStr "bogus"; JStr "facts"]%string eq_refl)
      as (_ & Hlist); [repeat constructor|discriminate|].
    now rewrite (Hlist eq_refl).
  - destruct (handler_validation (Demo.world "" (Demo.steady "A page."))
                Demo.request []) as (_ & _ & H).
    destruct (H _ eq_refl eq_refl) as (_ & _ & _ & Hbucket).
    rewrite (Hbucket (map JStr Demo.categories)); try reflexivity.
    repeat constructor.
Defined.

Lemma generate_content_meta_description_witness :
  exists r log,
    generate_content (Demo.world "pages" (Demo.steady (Str.repeat "x" 500)))
      (JStr "Tea") (JStr "facts") []
    = (Ok r, log)
    /\ String.length (meta_description r) = 160.
Proof.
  edestruct (generate_content_meta_description
               (Demo.world "pages" (Demo.steady (Str.repeat "x" 500)))
               (JStr "Tea") (JStr "facts"))
    as (Hr & _ & _ & Hlen); [reflexivity..|].
  do 2 eexists. split; [exact Hr|].
  apply Hlen; reflexivity.
Defined.

Lemma parse_request_body_spec_witness :
  parse_request_body Demo.pages Demo.request = Ok Demo.request_value
  /\ parse_request_body Demo.pages Demo.encoded_request = Ok (JObj [])
  /\ parse_request_body Demo.pages [("httpMethod", JStr "POST")] = Ok (JObj [])
  /\ parse_request_body Demo.pages [("body", JNull)] = Ok (JObj [])
  /\ parse_request_body Demo.pages
       [("body", JNull); ("isBase64Encoded", JBool true)]
     = Ok (JObj [])
  /\ exists v, loads_or_empty Demo.pages "not json" = Ok v.
Proof.
  pose proof (parse_request_body_spec Demo.pages Demo.request)
    as (Hplain & _ & Hvalid & _).
  pose proof (parse_request_body_spec Demo.pages Demo.encoded_request)
    as (_ & Hencoded & _).
  pose proof (parse_request_body_spec Demo.pages [("httpMethod", JStr "POST")])
    as (_ & _ & _ & _ & Habsent & _).
  pose proof (parse_request_body_spec Demo.pages [("body", JNull)])
    as (_ & _ & _ & _ & _ & Hother & _).
  pose proof (parse_request_body_spec Demo.pages
                [("body", JNull); ("isBase64Encoded", JBool true)])
    as (_ & _ & _ & _ & _ & _ & Hfalsy & Hreturns).
  split; [|split; [|split; [|split; [|split]]]].
  - rewrite (Hplain Demo.request_text eq_refl eq_refl).
    exact (Hvalid Demo.request_text Demo.request_value eq_refl).
  - rewrite (Hencoded "e30="%string "{}"%string "{}"%string eq_refl eq_refl
               ltac:(discriminate) eq_refl eq_refl).
    exact (Hvalid "{}"%string (JObj []) eq_refl).
  - apply Habsent; try reflexivity. eexists. reflexivity.
  - apply (Hother JNull); try reflexivity. discriminate.
  - exact (Hfalsy JNull eq_refl eq_refl).
  - apply Hreturns. right. eexists. reflexivity.
Defined.

(** * Further properties of the code *)

(** ** More on [slugify] *)

Module SlugFacts.
Import Str.

Lemma alnum_not_hyphen c : is_alnum c = true -> is_hyphen c = false.
Proof.
  intros H. destruct (is_hyphen c) eqn:Hh; auto.
  apply Ascii.eqb_eq in Hh. subst c. discriminate.
Qed.

Lemma slug_char_cases c :
  is_slug_char c = true -> is_alnum c = true \/ c = hyphen.
Proof.
  unfold is_slug_char. rewrite orb_true_iff. intros [H|H]; auto.
  right. now apply Ascii.eqb_eq.
Qed.

Lemma first_sub_runs_true s c :
  first (sub_runs true s) = Some c -> is_alnum c = true.
Proof.
  induction s as [|a s IH]; simpl; try discriminate.
  destruct (is_alnum a) eqn:Ha; auto.
  simpl. intros H. now injection H as <-.
Qed.

Lemma adjacent_sub_runs b s : adjacent is_hyphen (sub_runs b s) = false.
Proof.
  revert b. induction s as [|a s IH]; intros b; simpl; auto.
  destruct (is_alnum a) eqn:Ha.
  - simpl. now rewrite (alnum_not_hyphen a Ha), IH.
  - destruct b; auto. simpl. rewrite IH.
    destruct (first (sub_runs true s)) as [c|] eqn:Hc; auto.
    now rewrite (alnum_not_hyphen c (first_sub_runs_true s c Hc)).
Qed.

Lemma adjacent_tail p c s : adjacent p (String c s) = false -> adjacent p s = false.
Proof. simpl. intros H. now apply orb_false_iff in H. Qed.

Lemma adjacent_lstrip p q s :
  adjacent p s = false -> adjacent p (lstrip q s) = false.
Proof.
  induction s as [|a s IH]; auto.
  intros H. simpl. destruct (q a); auto.
  apply IH. now apply adjacent_tail in H.
Qed.

Lemma adjacent_prefix p c r s :
  (forall c', first r = Some c' -> first s = Some c') ->
  adjacent p r = false ->
  (p c && match first s with Some c' => p c' | None => false end) = false ->
  adjacent p (String c r) = false.
Proof.
  intros Hfirst Hr Hc. simpl. rewrite Hr, orb_false_r.
  destruct (first r) as [c'|] eqn:Hf.
  - now rewrite (Hfirst c' eq_refl) in Hc.
  - now rewrite andb_false_r.
Qed.

Lemma adjacent_rstrip p q s :
  adjacent p s = false -> adjacent p (rstrip q s) = false.
Proof.
  induction s as [|a s IH]; auto.
  intros H. simpl in H. apply orb_false_iff in H. destruct H as [Ha Hs].
  simpl. destruct (rstrip q s) as [|b r] eqn:Hr.
  - destruct (q a); simpl; auto. now rewrite andb_false_r.
  - apply adjacent_prefix with s; [| |exact Ha].
    + intros c' Hc'. apply (StrFacts.first_rstrip q). now rewrite Hr.
    + now apply IH.
Qed.

Lemma adjacent_take p n s :
  adjacent p s = false -> adjacent p (take n s) = false.
Proof.
  revert s. induction n as [|n IH]; intros [|a s]; auto.
  intros H. simpl in H. apply orb_false_iff in H. destruct H as [Ha Hs].
  change (take (S n) (String a s)) with (String a (take n s)).
  apply adjacent_prefix with s; [apply StrFacts.first_take| |exact Ha].
  now apply IH.
Qed.

Lemma keep_sub_runs b s : keep is_alnum (sub_runs b s) = keep is_alnum s.
Proof.
  revert b. induction s as [|a s IH]; intros b; simpl; auto.
  destruct (is_alnum a) eqn:Ha.
  - simpl. now rewrite Ha, IH.
  - destruct b; auto. simpl. now rewrite IH.
Qed.

Lemma keep_lstrip p q s :
  (forall c, q c = true -> p c = false) -> keep p (lstrip q s) = keep p s.
Proof.
  intros Hpq. induction s as [|a s IH]; simpl; auto.
  destruct (q a) eqn:Ha; auto. now rewrite (Hpq a Ha).
Qed.

Lemma keep_rstrip p q s :
  (forall c, q c = true -> p c = false) -> keep p (rstrip q s) = keep p s.
Proof.
  intros Hpq. induction s as [|a s IH]; simpl; auto.
  destruct (rstrip q s) as [|b r] eqn:Hr.
  - rewrite <- IH. simpl.
    destruct (q a) eqn:Ha; simpl.
    + now rewrite (Hpq a Ha).
    + reflexivity.
  - simpl. simpl in IH. now rewrite IH.
Qed.

Lemma hyphen_not_alnum c : is_hyphen c = true -> is_alnum c = false.
Proof. intros H. apply Ascii.eqb_eq in H. now subst c. Qed.

Lemma take_empty n s : 0 < n -> take n s = EmptyString -> s = EmptyString.
Proof. destruct n, s; simpl; intros; try lia; congruence. Qed.

Lemma keep_empty_all p s :
  keep p s = EmptyString -> all (fun c => negb (p c)) s = true.
Proof.
  induction s as [|a s IH]; simpl; auto.
  destruct (p a); simpl; [discriminate|auto].
Qed.

Lemma sub_runs_no_alnum b s :
  all (fun c => negb (is_alnum c)) s = true ->
  all is_hyphen (sub_runs b s) = true.
Proof.
  revert b. induction s as [|a s IH]; intros b; simpl; auto.
  rewrite andb_true_iff. intros [Ha Hs].
  apply negb_true_iff in Ha. rewrite Ha.
  destruct b; auto. simpl. now rewrite IH.
Qed.

Lemma lstrip_all p s : all p s = true -> lstrip p s = EmptyString.
Proof.
  induction s as [|a s IH]; simpl; auto.
  rewrite andb_true_iff. intros [Ha Hs]. rewrite Ha. auto.
Qed.

Lemma sub_runs_fixed s : forall b,
  all is_slug_char s = true ->
  adjacent is_hyphen s = false ->
  (b = true -> first s <> Some hyphen) ->
  sub_runs b s = s.
Proof.
  induction s as [|a s IH]; intros b Hall Hadj Hb; simpl; auto.
  simpl in Hall. apply andb_true_iff in Hall. destruct Hall as [Ha Hs].
  pose proof (adjacent_tail _ _ _ Hadj) as Htail.
  destruct (is_alnum a) eqn:Halnum.
  - f_equal. apply IH; auto. discriminate.
  - destruct (slug_char_cases a Ha) as [H | ->]; [congruence|].
    destruct b; [now elim (Hb eq_refl)|].
    f_equal. apply IH; auto.
    intros _ Hfirst. simpl in Hadj. rewrite Hfirst in Hadj. discriminate.
Qed.

Lemma lstrip_fixed p s :
  (forall c, first s = Some c -> p c = false) -> lstrip p s = s.
Proof.
  destruct s as [|a s]; simpl; auto.
  intros H. now rewrite (H a eq_refl).
Qed.

Lemma length_rstrip p s : String.length (rstrip p s) <= String.length s.
Proof.
  induction s as [|a s IH]; simpl; auto.
  destruct (rstrip p s); [destruct (p a)|]; simpl in *; lia.
Qed.

Lemma rstrip_fixed p s :
  (forall c, last s = Some c -> p c = false) -> rstrip p s = s.
Proof.
  induction s as [|a s IH]; simpl; auto.
  intros H. destruct s as [|b s].
  - simpl. now rewrite (H a eq_refl).
  - rewrite IH; auto.
Qed.

End SlugFacts.

Lemma slugify_adjacent text :
  Str.adjacent Str.is_hyphen (slugify text) = false.
Proof.
  unfold slugify, Str.strip, Str.re_sub_non_alnum.
  apply SlugFacts.adjacent_take, SlugFacts.adjacent_rstrip,
    SlugFacts.adjacent_lstrip, SlugFacts.adjacent_sub_runs.
Qed.

Lemma slugify_first text c :
  Str.first (slugify text) = Some c -> Str.is_hyphen c = false.
Proof.
  unfold slugify. intros H.
  now apply StrFacts.first_take, StrFacts.first_rstrip,
    StrFacts.first_lstrip in H.
Qed.

Lemma uncut_keep text :
  Str.keep Str.is_alnum (uncut text) = Str.keep Str.is_alnum (Str.lower text).
Proof.
  unfold uncut, Str.strip, Str.re_sub_non_alnum.
  rewrite SlugFacts.keep_rstrip, SlugFacts.keep_lstrip
    by apply SlugFacts.hyphen_not_alnum.
  apply SlugFacts.keep_sub_runs.
Qed.

(** X1: a slug never has two hyphens in a row: every run of other
    characters, hyphens included, is written as one hyphen. *)
Theorem slugify_single_hyphens (text : string) :
  Str.adjacent Str.is_hyphen (slugify text) = false.
Proof. apply slugify_adjacent. Qed.

(** X2: before the cut at 100 the slug has exactly the letters and digits of
    the lower-cased text, in their order; nothing but other characters is
    dropped or replaced.  Hence a text whose slug fits in 100 characters
    keeps all of them. *)
Theorem slugify_keeps_letters_and_digits (text : string) :
  Str.keep Str.is_alnum (uncut text) = Str.keep Str.is_alnum (Str.lower text)
  /\ (String.length (uncut text) <= 100 ->
      Str.keep Str.is_alnum (slugify text)
      = Str.keep Str.is_alnum (Str.lower text)).
Proof.
  split; [apply uncut_keep|].
  intros Hfit. unfold slugify. fold (uncut text).
  rewrite StrFacts.take_all by exact Hfit. apply uncut_keep.
Qed.

Lemma slugify_keeps_letters_and_digits_witness :
  Str.keep Str.is_alnum (slugify "C++ & Rust, 2024!") = "crust2024".
Proof.
  rewrite (proj2 (slugify_keeps_letters_and_digits "C++ & Rust, 2024!")).
  - reflexivity.
  - vm_compute. lia.
Defined.

(** X3: the slug is empty exactly when the lower-cased text has no letter
    of [a-z] and no digit, as for an empty text or one of punctuation
    only. *)
Theorem slugify_empty_iff (text : string) :
  slugify text = ""
  <-> Str.all (fun c => negb (Str.is_alnum c)) (Str.lower text) = true.
Proof.
  split.
  - intros H. apply SlugFacts.keep_empty_all.
    rewrite <- uncut_keep.
    unfold slugify in H. fold (uncut text) in H.
    apply SlugFacts.take_empty in H; [|lia]. now rewrite H.
  - intros H. unfold slugify, Str.strip, Str.re_sub_non_alnum.
    rewrite SlugFacts.lstrip_all; [reflexivity|].
    now apply SlugFacts.sub_runs_no_alnum.
Qed.

(** X4: slugifying a slug only strips the hyphen the cut may have left at
    its end; a slug that was not cut is its own slug. *)
Theorem slugify_twice (text : string) :
  slugify (slugify text) = Str.rstrip Str.is_hyphen (slugify text)
  /\ (String.length (uncut text) <= 100 ->
      slugify (slugify text) = slugify text).
Proof.
  assert (Hchars : Str.all is_slug_char (slugify text) = true)
    by apply StrFacts.all_take, uncut_slug_chars.
  assert (Htwice :
    slugify (slugify text) = Str.rstrip Str.is_hyphen (slugify text)).
  { unfold slugify at 1. unfold Str.strip, Str.re_sub_non_alnum.
    rewrite (StrFacts.lower_fixed _ Hchars).
    rewrite SlugFacts.sub_runs_fixed;
      [|exact Hchars|apply slugify_adjacent|discriminate].
    rewrite SlugFacts.lstrip_fixed by apply slugify_first.
    apply StrFacts.take_all.
    pose proof (SlugFacts.length_rstrip Str.is_hyphen (slugify text)).
    pose proof (StrFacts.length_take 100 (uncut text)).
    unfold slugify in *. fold (uncut text) in *. lia. }
  split; [exact Htwice|].
  intros Hfit. rewrite Htwice.
  apply SlugFacts.rstrip_fixed. intros c Hc.
  unfold slugify in Hc. fold (uncut text) in Hc.
  rewrite StrFacts.take_all in Hc by exact Hfit.
  unfold uncut, Str.strip in Hc.
  now apply StrFacts.last_rstrip in Hc.
Qed.

Lemma slugify_twice_witness :
  slugify (slugify "Hello, World! 2024") = slugify "Hello, World! 2024".
Proof.
  apply (proj2 (slugify_twice "Hello, World! 2024")). vm_compute. lia.
Defined.

(** ** [create_response] and the responses of the handler *)

Lemma headers_lookup_set k k' v d :
  headers_lookup k (headers_set k' v d)
  = if String.eqb k' k then Some v else headers_lookup k d.
Proof.
  induction d as [|[k0 v0] d IH]; simpl.
  - reflexivity.
  - destruct (String.eqb_spec k0 k') as [->|Hne]; simpl.
    + destruct (String.eqb k' k); reflexivity.
    + rewrite IH. destruct (String.eqb_spec k0 k) as [->|Hne'].
      * destruct (String.eqb_spec k' k) as [->|]; [now elim Hne|reflexivity].
      * reflexivity.
Qed.

Lemma headers_lookup_app k d1 d2 :
  headers_lookup k (d1 ++ d2)
  = match headers_lookup k d1 with
    | Some v => Some v
    | None => headers_lookup k d2
    end.
Proof.
  induction d1 as [|[k0 v0] d1 IH]; simpl; auto.
  destruct (String.eqb k0 k); auto.
Qed.

Lemma headers_lookup_update k other : forall d,
  headers_lookup k (headers_update d other)
  = match headers_lookup k (rev other) with
    | Some v => Some v
    | None => headers_lookup k d
    end.
Proof.
  unfold headers_update.
  induction other as [|[k0 v0] other IH]; intros d; simpl; auto.
  rewrite IH, headers_lookup_app, headers_lookup_set. simpl.
  destruct (headers_lookup k (rev other)); auto.
  destruct (String.eqb k0 k); reflexivity.
Qed.

(** X5: [create_response] keeps the status code and the payload; a header
    of the response is the one the caller gave under that name (the last
    one, if the name is given twice), and otherwise the default one, so the
    content type and the three CORS headers are there unless the caller
    overrides them. *)
Theorem create_response_headers
    (status_code : Z) (payload : json) (extra : option response_headers)
    (k : string) :
  statusCode (create_response status_code payload extra) = status_code
  /\ body (create_response status_code payload extra) = payload
  /\ headers_lookup k (headers (create_response status_code payload extra))
     = match extra with
       | Some given =>
           match headers_lookup k (rev given) with
           | Some v => Some v
           | None => headers_lookup k default_headers
           end
       | None => headers_lookup k default_headers
       end
  /\ (headers_lookup k default_headers <> None ->
      headers_lookup k (headers (create_response status_code payload extra))
      <> None).
Proof.
  assert (Hlookup :
    headers_lookup k (headers (create_response status_code payload extra))
    = match extra with
      | Some given =>
          match headers_lookup k (rev given) with
          | Some v => Some v
          | None => headers_lookup k default_headers
          end
      | None => headers_lookup k default_headers
      end).
  { destruct extra as [[|kv given]|]; try reflexivity.
    unfold create_response, headers. apply headers_lookup_update. }
  repeat split; auto.
  rewrite Hlookup. intros Hdefault.
  destruct extra as [given|]; auto.
  destruct (headers_lookup k (rev given)); [discriminate|exact Hdefault].
Qed.

Lemma create_response_headers_witness :
  headers_lookup "Access-Control-Allow-Origin"
    (headers (create_response 200 (JObj [])
                (Some [("Cache-Control", "no-store")%string])))
  <> None.
Proof.
  apply (create_response_headers 200 (JObj [])
           (Some [("Cache-Control", "no-store")%string])
           "Access-Control-Allow-Origin").
  discriminate.
Defined.

Section Responses.

Variable E : env.

Lemma handler_response event log resp log' :
  handler E event log = (Ok resp, log') ->
  exists status_code payload,
    resp = create_response status_code payload None
    /\ In status_code [200; 400; 405; 500]%Z.
Proof.
  unfold handler, bind, lift, ret.
  destruct (get_http_method event) as [m|e]; [|discriminate].
  destruct (py_eq_str m "OPTIONS");
    [intros H; inversion H; do 2 eexists; split; [reflexivity|simpl; auto]|].
  destruct (negb (py_eq_str m "POST"));
    [intros H; inversion H; do 2 eexists; split; [reflexivity|simpl; auto]|].
  destruct (parse_request_body E event) as [body|e]; [|discriminate].
  destruct (py_get body "topics" (JArr [])) as [topics|e]; [|discriminate].
  destruct (py_get body "categories" (JArr [])) as [categories|e];
    [|discriminate].
  destruct (negb (py_truthy topics));
    [intros H; inversion H; do 2 eexists; split; [reflexivity|simpl; auto]|].
  destruct (negb (py_truthy categories));
    [intros H; inversion H; do 2 eexists; split; [reflexivity|simpl; auto]|].
  destruct (py_iter categories) as [cs|e]; [|discriminate].
  destruct (reject_unknown E cs) as [invalid|e]; [|discriminate].
  destruct (py_truthy (JArr invalid));
    [intros H; inversion H; do 2 eexists; split; [reflexivity|simpl; auto]|].
  destruct (negb (py_truthy (JStr (OUTPUT_BUCKET E))));
    [intros H; inversion H; do 2 eexists; split; [reflexivity|simpl; auto]|].
  destruct (py_iter topics) as [ts|e]; [|discriminate].
  match goal with |- context [for_each ts ?f ?a log] =>
    destruct (for_each ts f a log) as [[acc|e] log1] end; [|discriminate].
  intros H; inversion H; do 2 eexists; split; [reflexivity|simpl; auto].
Qed.

End Responses.

(** X6: whatever the handler returns, success or rejection, carries the
    default headers (JSON content type and the three CORS headers) and one
    of the status codes 200, 400, 405 and 500. *)
Theorem handler_response_shape
    (E : env) (event : dict) (log log' : list call) (resp : response) :
  handler E event log = (Ok resp, log') ->
  headers resp = default_headers
  /\ In (statusCode resp) [200; 400; 405; 500]%Z.
Proof.
  intros H.
  destruct (handler_response E event log resp log' H)
    as (st & payload & -> & Hst).
  split; [reflexivity|exact Hst].
Qed.

Lemma handler_response_shape_witness :
  headers (create_response 405 (error_payload "Method not allowed") None)
  = default_headers.
Proof.
  exact (proj1 (handler_response_shape Demo.pages Demo.v2_event [] []
                  (create_response 405 (error_payload "Method not allowed") None)
                  eq_refl)).
Defined.

(** ** When the event normalisers raise *)

(** X7: [get_http_method] raises only on an event whose [requestContext] is
    present and is not an object, or is an object whose [http] entry is not
    an object; on every other event it returns. *)
Theorem get_http_method_raise_cases (event : dict) (e : exn) :
  get_http_method event = Raise e ->
  exists ctx,
    dict_lookup "requestContext" event = Some ctx
    /\ ((forall d, ctx <> JObj d)
        \/ exists d http,
            ctx = JObj d
            /\ dict_lookup "http" d = Some http
            /\ forall h, http <> JObj h).
Proof.
  unfold get_http_method, dict_mem, dict_get, dict_getitem.
  destruct (dict_lookup "requestContext" event) as [ctx|]; [|discriminate].
  intros H. exists ctx. split; [reflexivity|].
  destruct ctx as [| | | |l|d]; try (left; discriminate).
  right. simpl in H. unfold dict_mem, dict_getitem in H.
  destruct (dict_lookup "http" d) as [http|] eqn:Hhttp; [|discriminate].
  exists d, http. repeat split; auto.
  intros h ->. discriminate.
Qed.

Lemma get_http_method_raise_cases_witness :
  exists ctx,
    dict_lookup "requestContext" [("requestContext", JNull)] = Some ctx
    /\ ((forall d, ctx <> JObj d)
        \/ exists d http,
            ctx = JObj d
            /\ dict_lookup "http" d = Some http
            /\ forall h, http <> JObj h).
Proof.
  exact (get_http_method_raise_cases [("requestContext", JNull)]
           (Exn TypeError "argument of type 'NoneType' is not iterable")
           eq_refl).
Defined.

(** X8: a body that is null, empty or otherwise falsy is never decoded from
    base64, whatever [isBase64Encoded] says: an empty string goes to
    [json.loads] as it is, and any other falsy body yields the empty
    object. *)
Theorem parse_request_body_falsy_body (E : env) (event : dict) :
  py_truthy (dict_get "body" (JStr "{}") event) = false ->
  parse_request_body E event
  = match dict_get "body" (JStr "{}") event with
    | JStr _ => loads_or_empty E ""
    | _ => Ok (JObj [])
    end.
Proof.
  intros Hfalsy. rewrite parse_plain.
  - destruct (dict_get "body" (JStr "{}") event) as [|b|n|s|l|d];
      simpl in Hfalsy |- *; rewrite ?Hfalsy; try reflexivity.
    apply negb_false_iff, String.eqb_eq in Hfalsy. now subst s.
  - rewrite Hfalsy. apply andb_false_r.
Qed.

Lemma parse_request_body_falsy_body_witness :
  parse_request_body Demo.pages
    [("body", JNull); ("isBase64Encoded", JBool true)]
  = Ok (JObj [])
  /\ parse_request_body Demo.pages
       [("body", JStr ""); ("isBase64Encoded", JBool true)]
     = Ok (JObj []).
Proof.
  split.
  - exact (parse_request_body_falsy_body Demo.pages
             [("body", JNull); ("isBase64Encoded", JBool true)] eq_refl).
  - exact (parse_request_body_falsy_body Demo.pages
             [("body", JStr ""); ("isBase64Encoded", JBool true)] eq_refl).
Defined.

(** X9: [parse_request_body] raises in two ways only: decoding a non-empty
    body flagged as base64 failed (not base64, or not UTF-8), or
    [json.loads] raised something else than [JSONDecodeError]. *)
Theorem parse_request_body_raise_cases (E : env) (event : dict) (e : exn) :
  parse_request_body E event = Raise e ->
  let body := dict_get "body" (JStr "{}") event in
  (py_truthy (dict_get "isBase64Encoded" (JBool false) event) = true
   /\ py_truthy body = true
   /\ (Base64.b64decode body = Raise e
       \/ exists bytes,
           Base64.b64decode body = Ok bytes
           /\ decode_utf8 E bytes = None
           /\ exn_type e = UnicodeDecodeError))
  \/ (exists text,
        json_loads E text = Raise e /\ exn_type e <> JSONDecodeError).
Proof.
  intros H body.
  assert (Hloads : forall text,
    loads_or_empty E text = Raise e ->
    json_loads E text = Raise e /\ exn_type e <> JSONDecodeError).
  { intros text. unfold loads_or_empty.
    destruct (json_loads E text) as [v|e0]; [discriminate|].
    destruct (exn_type e0) eqn:He0; try discriminate;
      intros Hr; injection Hr as <-; split; congruence. }
  destruct (py_truthy (dict_get "isBase64Encoded" (JBool false) event)
            && py_truthy body) eqn:Hdec.
  - rewrite parse_encoded in H by exact Hdec.
    apply andb_true_iff in Hdec. destruct Hdec as [Hflag Hbody].
    fold body in H.
    destruct (Base64.b64decode body) as [bytes|e0].
    + destruct (decode_utf8 E bytes) as [text|] eqn:Hutf.
      * right. exists text. now apply Hloads.
      * left. injection H as <-. repeat split; auto. right. eauto.
    + left. injection H as <-. auto.
  - rewrite parse_plain in H by exact Hdec. fold body in H.
    destruct body; try discriminate.
    right. eexists. apply Hloads. exact H.
Qed.

Lemma parse_request_body_raise_cases_witness :
  let e := Exn BinasciiError
    "Invalid base64-encoded string: number of data characters (1) cannot be 1 more than a multiple of 4" in
  let body := dict_get "body" (JStr "{}") Demo.garbled_request in
  (py_truthy (dict_get "isBase64Encoded" (JBool false) Demo.garbled_request)
   = true
   /\ py_truthy body = true
   /\ (Base64.b64decode body = Raise e
       \/ exists bytes,
           Base64.b64decode body = Ok bytes
           /\ decode_utf8 Demo.pages bytes = None
           /\ exn_type e = UnicodeDecodeError))
  \/ (exists text,
        json_loads Demo.pages text = Raise e
        /\ exn_type e <> JSONDecodeError).
Proof.
  exact (parse_request_body_raise_cases Demo.pages Demo.garbled_request
           _ eq_refl).
Defined.

(** ** Requests the validation does not catch *)

Section Uncaught.

Variable E : env.

Lemma reject_unknown_unhashable cs :
  Exists (fun c => hashable c = false) cs ->
  exists e, reject_unknown E cs = Raise e /\ exn_type e = TypeError.
Proof.
  induction cs as [|c cs IH]; intros H; [inversion H|].
  simpl. unfold in_config, config_lookup.
  destruct c as [| | |s|l|d]; simpl;
    try (eexists; split; reflexivity);
    (assert (Htail : Exists (fun c => hashable c = false) cs)
      by (inversion H; [discriminate|assumption]));
    destruct (IH Htail) as (e & He & Hty); rewrite He;
    try destruct (config_find s (CATEGORY_CONFIG E)); simpl; eauto.
Qed.

End Uncaught.

(** X10: a POST whose body parses to something that is not an object (a
    list, a string, a number, null) makes the handler raise
    [AttributeError] instead of answering 400; no call is made. *)
Theorem handler_non_object_body
    (E : env) (event : dict) (v : json) (log : list call) :
  get_http_method event = Ok (JStr "POST") ->
  parse_request_body E event = Ok v ->
  (forall d, v <> JObj d) ->
  handler E event log = (Raise (no_attribute v "get"), log).
Proof.
  intros Hm Hbody Hv. unfold handler, bind, lift, ret.
  rewrite Hm, Hbody. simpl.
  destruct v; try reflexivity. now elim (Hv fields).
Qed.

Lemma handler_non_object_body_witness :
  handler Demo.pages (Demo.post (JArr [JStr "Tea"])) []
  = (Raise (Exn AttributeError "'list' object has no attribute 'get'"), []).
Proof.
  apply (handler_non_object_body Demo.pages (Demo.post (JArr [JStr "Tea"]))
           (JArr [JStr "Tea"]) []); try reflexivity.
  discriminate.
Defined.

(** X11: [topics] that is truthy but cannot be iterated (a non-zero number,
    [true]) passes every check of the validation and then makes the loop
    header raise [TypeError]: the handler raises, without any call, instead
    of answering 400. *)
Theorem handler_topics_not_iterable
    (E : env) (event : dict) (body : dict) (cs : list json) (e : exn)
    (log : list call) :
  get_http_method event = Ok (JStr "POST") ->
  parse_request_body E event = Ok (JObj body) ->
  let topics := dict_get "topics" (JArr []) body in
  let categories := dict_get "categories" (JArr []) body in
  py_truthy topics = true ->
  py_truthy categories = true ->
  py_iter categories = Ok cs ->
  Forall (fun c => known E c = true) cs ->
  OUTPUT_BUCKET E <> ""%string ->
  py_iter topics = Raise e ->
  handler E event log = (Raise e, log)
  /\ e = not_iterable topics.
Proof.
  intros Hm Hbody topics categories Ht Hc Hcs Hknown Hbucket Hts.
  split.
  - unfold handler, bind, lift, ret. rewrite Hm, Hbody. simpl.
    fold topics categories. rewrite Ht, Hc. simpl. rewrite Hcs.
    rewrite (reject_unknown_known E cs Hknown). simpl.
    destruct (String.eqb_spec (OUTPUT_BUCKET E) ""); [contradiction|].
    simpl. now rewrite Hts.
  - destruct topics; simpl in Hts; try discriminate; now injection Hts.
Qed.

Lemma handler_topics_not_iterable_witness :
  handler Demo.pages
    (Demo.post (JObj [ ("topics", JNum 5);
                       ("categories", JArr [JStr "facts"]) ])) []
  = (Raise (Exn TypeError "'int' object is not iterable"), []).
Proof.
  refine (proj1 (handler_topics_not_iterable Demo.pages
            (Demo.post (JObj [ ("topics", JNum 5);
                               ("categories", JArr [JStr "facts"]) ]))
            [ ("topics", JNum 5); ("categories", JArr [JStr "facts"]) ]%string
            [JStr "facts"] _ [] eq_refl eq_refl eq_refl eq_refl eq_refl
            _ _ eq_refl)).
  - repeat constructor.
  - discriminate.
Defined.

(** X12: a list or an object among the categories cannot be looked up in
    the table: the comprehension that collects the invalid categories raises
    [TypeError], so the handler raises, without any call, instead of listing
    it as invalid. *)
Theorem handler_unhashable_category
    (E : env) (event : dict) (body : dict) (cs : list json)
    (log : list call) :
  get_http_method event = Ok (JStr "POST") ->
  parse_request_body E event = Ok (JObj body) ->
  py_truthy (dict_get "topics" (JArr []) body) = true ->
  py_iter (dict_get "categories" (JArr []) body) = Ok cs ->
  Exists (fun c => hashable c = false) cs ->
  exists e,
    handler E event log = (Raise e, log) /\ exn_type e = TypeError.
Proof.
  intros Hm Hbody Ht Hcs Hex.
  destruct (reject_unknown_unhashable E cs Hex) as (e & He & Hty).
  exists e. split; [|exact Hty].
  unfold handler, bind, lift, ret. rewrite Hm, Hbody. simpl.
  rewrite Ht. simpl.
  rewrite (py_iter_nonempty _ cs Hcs) by (intros ->; inversion Hex).
  simpl. now rewrite Hcs, He.
Qed.

Lemma handler_unhashable_category_witness :
  exists e,
    handler Demo.pages
      (Demo.post (JObj [ ("topics", JArr [JStr "Tea"]);
                         ("categories", JArr [JStr "facts"; JArr []]) ])) []
    = (Raise e, [])
    /\ exn_type e = TypeError.
Proof.
  apply (handler_unhashable_category Demo.pages _
           [ ("topics", JArr [JStr "Tea"]);
             ("categories", JArr [JStr "facts"; JArr []]) ]%string
           [JStr "facts"; JArr []]); try reflexivity.
  right. left. reflexivity.
Defined.

(** X13: when [topics] is a string instead of a list, the loop runs over its
    characters: a valid request of that shape is answered with 200 and one
    record per character and category. *)
Theorem handler_string_topics
    (E : env) (event : dict) (body : dict) (text : string) (cs : list json)
    (log : list call) :
  get_http_method event = Ok (JStr "POST") ->
  parse_request_body E event = Ok (JObj body) ->
  dict_lookup "topics" body = Some (JStr text) ->
  text <> ""%string ->
  py_truthy (dict_get "categories" (JArr []) body) = true ->
  py_iter (dict_get "categories" (JArr []) body) = Ok cs ->
  Forall (fun c => known E c = true) cs ->
  OUTPUT_BUCKET E <> ""%string ->
  exists generated failed log',
    handler E event log
    = (Ok (create_response 200 (batch_payload generated failed) None), log')
    /\ batch (list_prod
                (map (fun c => JStr (String c EmptyString))
                     (list_ascii_of_string text))
                cs)
             generated failed
    /\ List.length generated + List.length failed
       = String.length text * List.length cs.
Proof.
  intros Hm Hbody Htopics Hne Hc Hcs Hknown Hbucket.
  assert (Hvalid : valid_request E event
            (map (fun c => JStr (String c EmptyString))
                 (list_ascii_of_string text)) cs).
  { constructor; auto.
    exists body. do 2 eexists. repeat split; eauto.
    - unfold dict_get. rewrite Htopics. simpl.
      destruct (String.eqb_spec text ""); [contradiction|reflexivity].
    - unfold dict_get. now rewrite Htopics. }
  destruct (valid_request_handler E event _ cs log Hvalid)
    as (g & f & log' & Hh & Hb).
  exists g, f, log'. repeat split; auto.
  rewrite (batch_length _ _ _ Hb), length_prod, length_map.
  f_equal. clear. induction text; simpl; auto.
Qed.

Lemma handler_string_topics_witness :
  exists generated failed log',
    handler Demo.pages
      (Demo.post (JObj [ ("topics", JStr "Tea");
                         ("categories", JArr [JStr "facts"]) ])) []
    = (Ok (create_response 200 (batch_payload generated failed) None), log')
    /\ List.length generated + List.length failed = 3 * 1.
Proof.
  destruct (handler_string_topics Demo.pages
              (Demo.post (JObj [ ("topics", JStr "Tea");
                                 ("categories", JArr [JStr "facts"]) ]))
              [ ("topics", JStr "Tea");
                ("categories", JArr [JStr "facts"]) ]%string
              "Tea" [JStr "facts"] [] eq_refl eq_refl eq_refl
              ltac:(discriminate) eq_refl eq_refl
              ltac:(repeat constructor) pages_configured)
    as (g & f & log' & Hh & _ & Hlen).
  exists g, f, log'. split; [exact Hh|exact Hlen].
Defined.

(** ** The calls of a run *)

Lemma string_append_assoc (a b c : string) :
  ((a ++ b) ++ c = a ++ (b ++ c))%string.
Proof. induction a as [|x a IH]; simpl; [reflexivity|now rewrite IH]. Qed.

Section Calls.

Variable E : env.

Lemma generate_with_bedrock_log prompt log :
  exists r,
    generate_with_bedrock E prompt log
    = (r, log ++ [InvokeModel (BEDROCK_MODEL_ID E) prompt]).
Proof. unfold generate_with_bedrock. eauto. Qed.

(** The calls of [generate_content]: none when it raises before the first
    prompt is sent, one when the first call raises, else two. *)
Lemma generate_content_trace topic category log r log' :
  generate_content E topic category log = (r, log') ->
  (log' = log /\ exists e, r = Raise e)
  \/ (exists prompt e,
        log' = log ++ [InvokeModel (BEDROCK_MODEL_ID E) prompt]
        /\ r = Raise e)
  \/ (exists prompt meta_prompt,
        log' = log ++ [ InvokeModel (BEDROCK_MODEL_ID E) prompt;
                        InvokeModel (BEDROCK_MODEL_ID E) meta_prompt ]).
Proof.
  unfold generate_content, bind, lift, ret, raise.
  destruct (config_lookup E category) as [[cfg|]|e];
    [|intros H; inversion H; left; eauto..].
  destruct (str_format E (prompt_template cfg) topic) as [prompt|e];
    [|intros H; inversion H; left; eauto].
  match goal with |- context [generate_with_bedrock E ?p log] =>
    destruct (generate_with_bedrock_log p log) as (c & Hc); rewrite Hc end.
  destruct c as [c|e]; [|intros H; inversion H; right; left; eauto].
  match goal with |- context [generate_with_bedrock E ?p ?l] =>
    destruct (generate_with_bedrock_log p l) as (meta & Hmeta);
    rewrite Hmeta end.
  destruct meta as [meta|e].
  - destruct (py_strip meta); intros H; inversion H; right; right;
      rewrite <- app_assoc; simpl; eauto.
  - intros H; inversion H; right; right; rewrite <- app_assoc; simpl; eauto.
Qed.

(** The calls of [save_to_s3]: none when rendering or naming raises, else
    the one write, under [output/] and the generated file name. *)
Lemma save_to_s3_trace topic category content meta cname log r log' :
  save_to_s3 E topic category content meta cname log = (r, log') ->
  (log' = log /\ exists e, r = Raise e)
  \/ (exists filename html,
        generate_filename E topic category = Ok filename
        /\ render_html_page E topic category cname content meta = Ok html
        /\ log' = log ++ [PutObject (OUTPUT_BUCKET E)
                            ("output/" ++ filename)%string html]
        /\ (r = Ok ("output/" ++ filename)%string
            \/ exists e,
                put_object E log (OUTPUT_BUCKET E)
                  ("output/" ++ filename)%string html = Raise e
                /\ r = Raise e)).
Proof.
  unfold save_to_s3, bind, lift, ret.
  destruct (render_html_page E topic category cname content meta)
    as [html|e]; [|intros H; inversion H; left; eauto].
  destruct (generate_filename E topic category) as [filename|e];
    [|intros H; inversion H; left; eauto].
  destruct (put_object E log (OUTPUT_BUCKET E) ("output/" ++ filename)%string
              html) as [[]|e] eqn:Hput;
    intros H; inversion H; right; exists filename, html; repeat split; eauto.
Qed.

Lemma process_pair_trace topic category acc log :
  exists calls,
    snd (process_pair E topic category acc log) = log ++ calls
    /\ ((exists prompt meta_prompt filename html created_at,
            generate_filename E topic category = Ok filename
            /\ calls = [ InvokeModel (BEDROCK_MODEL_ID E) prompt;
                         InvokeModel (BEDROCK_MODEL_ID E) meta_prompt;
                         PutObject (OUTPUT_BUCKET E)
                           ("output/" ++ filename)%string html ]
            /\ fst (process_pair E topic category acc log)
               = Ok (fst acc
                     ++ [generated_record topic category
                           ("output/" ++ filename)%string created_at],
                     snd acc))
        \/ (exists e,
            failed_calls E topic category calls
            /\ fst (process_pair E topic category acc log)
               = Ok (fst acc, snd acc ++ [failure_record topic category e]))).
Proof.
  unfold process_pair, attempt_pair, try_except, bind, ret, utcnow.
  destruct (generate_content E topic category log) as [r log1] eqn:Hgen.
  destruct (generate_content_trace _ _ _ _ _ Hgen)
    as [(-> & e & ->) | [(p & e & -> & ->) | (p1 & p2 & ->)]].
  - exists []. rewrite app_nil_r. split; [reflexivity|].
    right. exists e. split; [constructor|reflexivity].
  - eexists. split; [reflexivity|].
    right. exists e. split; [constructor|reflexivity].
  - destruct r as [res|e].
    + destruct (save_to_s3 E topic category (content res)
                  (meta_description res) (category_name res)
                  (log ++ [InvokeModel (BEDROCK_MODEL_ID E) p1;
                           InvokeModel (BEDROCK_MODEL_ID E) p2]))
        as [r2 log2] eqn:Hsave.
      destruct (save_to_s3_trace _ _ _ _ _ _ _ _ Hsave)
        as [(-> & e & ->)
           | (filename & html & Hname & _ & -> & [-> | (e & _ & ->)])].
      * eexists. split; [reflexivity|].
        right. exists e. split; [constructor|reflexivity].
      * eexists. split; [simpl; rewrite <- app_assoc; reflexivity|].
        left. exists p1, p2, filename, html. eexists.
        repeat split; auto.
      * eexists. split; [simpl; rewrite <- app_assoc; reflexivity|].
        right. exists e. split; [now constructor|reflexivity].
    + eexists. split; [reflexivity|].
      right. exists e. split; [constructor|reflexivity].
Qed.

Lemma traced_app pairs1 g1 f1 calls1 pairs2 g2 f2 calls2 :
  traced E pairs1 g1 f1 calls1 ->
  traced E pairs2 g2 f2 calls2 ->
  traced E (pairs1 ++ pairs2) (g1 ++ g2) (f1 ++ f2) (calls1 ++ calls2).
Proof.
  induction 1; intros H2; simpl; auto.
  - apply (traced_generated E topic category prompt meta_prompt filename html
             created_at); auto.
  - rewrite <- app_assoc. constructor; auto.
Qed.

Lemma categories_loop_traced topic cs : forall acc log,
  exists generated failed calls,
    for_each cs (process_pair E topic) acc log
    = (Ok (fst acc ++ generated, snd acc ++ failed), log ++ calls)
    /\ traced E (map (pair topic) cs) generated failed calls.
Proof.
  induction cs as [|c cs IH]; intros acc log; simpl.
  - exists [], [], []. unfold ret. rewrite !app_nil_r.
    destruct acc; split; [reflexivity|constructor].
  - unfold bind.
    destruct (process_pair_trace topic c acc log) as (calls1 & Hlog & Hcase).
    destruct (process_pair E topic c acc log) as [r log1]. simpl in Hlog, Hcase.
    subst log1.
    destruct Hcase as [(p1 & p2 & fn & html & at_ & Hfn & -> & ->) | (e & Hf & ->)];
      match goal with |- context [for_each cs _ ?a ?l] =>
        destruct (IH a l) as (g & f & calls2 & Hloop & Ht) end;
      rewrite Hloop; simpl.
    + exists (generated_record topic c ("output/" ++ fn)%string at_ :: g), f.
      eexists. rewrite <- !app_assoc. split; [reflexivity|].
      simpl. now apply (traced_generated E topic c p1 p2 fn html at_).
    + exists g, (failure_record topic c e :: f). eexists.
      rewrite <- !app_assoc. split; [reflexivity|].
      now constructor.
Qed.

Lemma topics_loop_traced ts cs : forall acc log,
  exists generated failed calls,
    for_each ts (fun topic acc => for_each cs (process_pair E topic) acc)
      acc log
    = (Ok (fst acc ++ generated, snd acc ++ failed), log ++ calls)
    /\ traced E (list_prod ts cs) generated failed calls.
Proof.
  induction ts as [|t ts IH]; intros acc log; simpl.
  - exists [], [], []. unfold ret. rewrite !app_nil_r.
    destruct acc; split; [reflexivity|constructor].
  - unfold bind.
    destruct (categories_loop_traced t cs acc log)
      as (g1 & f1 & c1 & H1 & T1).
    rewrite H1.
    destruct (IH (fst acc ++ g1, snd acc ++ f1) (log ++ c1))
      as (g2 & f2 & c2 & H2 & T2).
    rewrite H2. simpl.
    exists (g1 ++ g2), (f1 ++ f2), (c1 ++ c2).
    rewrite !app_assoc. split; [reflexivity|now apply traced_app].
Qed.

Lemma valid_request_traced event ts cs log :
  valid_request E event ts cs ->
  exists generated failed calls,
    handler E event log
    = (Ok (create_response 200 (batch_payload generated failed) None),
       log ++ calls)
    /\ traced E (list_prod ts cs) generated failed calls.
Proof.
  intros [Hm (body & topics & categories & Hb & Ht & Hc & Htt & Hct & Hts & Hcs)
            Hknown Hbucket].
  rewrite (handler_processing E event (JObj body) topics categories ts cs log);
    auto.
  - destruct (topics_loop_traced ts cs ([], []) log)
      as (g & f & calls & Hloop & Htr).
    rewrite Hloop. simpl. eauto.
  - simpl. now rewrite Ht.
  - simpl. now rewrite Hc.
  - now apply reject_unknown_known.
Qed.

(** Every run of the handler, on any event. *)
Lemma handler_traced event log r log' :
  handler E event log = (r, log') ->
  exists pairs generated failed calls,
    log' = log ++ calls /\ traced E pairs generated failed calls.
Proof.
  assert (Hnone : forall l : list call,
    exists pairs generated failed calls,
      l = l ++ calls /\ traced E pairs generated failed calls).
  { intros l. exists [], [], [], []. rewrite app_nil_r.
    split; [reflexivity|constructor]. }
  unfold handler, bind, lift, ret.
  destruct (get_http_method event) as [m|e];
    [|intros H; inversion H; subst; apply Hnone].
  destruct (py_eq_str m "OPTIONS");
    [intros H; inversion H; subst; apply Hnone|].
  destruct (negb (py_eq_str m "POST"));
    [intros H; inversion H; subst; apply Hnone|].
  destruct (parse_request_body E event) as [body|e];
    [|intros H; inversion H; subst; apply Hnone].
  destruct (py_get body "topics" (JArr [])) as [topics|e];
    [|intros H; inversion H; subst; apply Hnone].
  destruct (py_get body "categories" (JArr [])) as [categories|e];
    [|intros H; inversion H; subst; apply Hnone].
  destruct (negb (py_truthy topics));
    [intros H; inversion H; subst; apply Hnone|].
  destruct (negb (py_truthy categories));
    [intros H; inversion H; subst; apply Hnone|].
  destruct (py_iter categories) as [cs|e];
    [|intros H; inversion H; subst; apply Hnone].
  destruct (reject_unknown E cs) as [invalid|e];
    [|intros H; inversion H; subst; apply Hnone].
  destruct (py_truthy (JArr invalid));
    [intros H; inversion H; subst; apply Hnone|].
  destruct (negb (py_truthy (JStr (OUTPUT_BUCKET E))));
    [intros H; inversion H; subst; apply Hnone|].
  destruct (py_iter topics) as [ts|e];
    [|intros H; inversion H; subst; apply Hnone].
  rewrite for_each_ext
    with (g := fun topic acc => for_each cs (process_pair E topic) acc)
    by reflexivity.
  destruct (topics_loop_traced ts cs ([], []) log)
    as (g & f & calls & Hloop & Htr).
  rewrite Hloop. intros H. inversion H.
  exists (list_prod ts cs), g, f, calls. split; [reflexivity|exact Htr].
Qed.

End Calls.

Section CallFacts.

Variable E : env.

Lemma count_invoke_app a b :
  count_invoke (a ++ b) = count_invoke a + count_invoke b.
Proof. unfold count_invoke. now rewrite filter_app, length_app. Qed.

Lemma count_put_app a b : count_put (a ++ b) = count_put a + count_put b.
Proof. unfold count_put. now rewrite filter_app, length_app. Qed.

Lemma generated_key topic category filename :
  generate_filename E topic category = Ok filename ->
  exists stem, ("output/" ++ filename = "output/" ++ stem ++ ".html")%string.
Proof.
  unfold generate_filename. destruct (slugify_value topic) as [slug|e];
    [|discriminate].
  simpl. intros H. injection H as <-.
  exists (slug ++ "-" ++ py_str E category)%string.
  now rewrite !string_append_assoc.
Qed.

Lemma failed_calls_allowed topic category calls :
  failed_calls E topic category calls -> Forall (handler_call E) calls.
Proof.
  destruct 1; repeat constructor. now apply generated_key with topic category.
Qed.

Lemma failed_calls_counts topic category calls :
  failed_calls E topic category calls ->
  count_invoke calls <= 2 /\ count_put calls <= 1.
Proof. destruct 1; cbn; lia. Qed.

Lemma traced_allowed pairs generated failed calls :
  traced E pairs generated failed calls -> Forall (handler_call E) calls.
Proof.
  induction 1.
  - constructor.
  - repeat constructor; auto. now apply generated_key with topic category.
  - apply Forall_app. split; auto.
    now apply failed_calls_allowed with topic category.
Qed.

Lemma traced_counts pairs generated failed calls :
  traced E pairs generated failed calls ->
  2 * List.length generated <= count_invoke calls
  /\ count_invoke calls <= 2 * List.length pairs
  /\ List.length generated <= count_put calls
  /\ count_put calls <= List.length pairs
  /\ (failed = [] ->
      List.length generated = List.length pairs
      /\ count_invoke calls = 2 * List.length pairs
      /\ count_put calls = List.length pairs).
Proof.
  induction 1 as [| topic category p1 p2 fn html at_ pairs g f calls Hfn Ht IH
                  | topic category e pc pairs g f calls Hf Ht IH].
  - cbn. repeat split; lia.
  - destruct IH as (I1 & I2 & I3 & I4 & I5).
    change (count_invoke ([InvokeModel (BEDROCK_MODEL_ID E) p1;
                           InvokeModel (BEDROCK_MODEL_ID E) p2;
                           PutObject (OUTPUT_BUCKET E) ("output/" ++ fn) html]
                          ++ calls))
      with (S (S (count_invoke calls))).
    change (count_put ([InvokeModel (BEDROCK_MODEL_ID E) p1;
                        InvokeModel (BEDROCK_MODEL_ID E) p2;
                        PutObject (OUTPUT_BUCKET E) ("output/" ++ fn) html]
                       ++ calls))
      with (S (count_put calls)).
    simpl List.length. repeat split; try lia;
      destruct (I5 H) as (J1 & J2 & J3); lia.
  - destruct IH as (I1 & I2 & I3 & I4 & I5).
    destruct (failed_calls_counts _ _ _ Hf) as [F1 F2].
    rewrite count_invoke_app, count_put_app. simpl List.length.
    repeat split; try lia; discriminate.
Qed.


End CallFacts.

(** X14: whatever the event and whatever the clients answer, a run of the
    handler only adds calls to those made before, and every call it adds is
    either to the configured model or a write to the configured bucket under
    a key of the form [output/....html]. *)
Theorem handler_calls_allowed
    (E : env) (event : dict) (log log' : list call) (r : pyres response) :
  handler E event log = (r, log') ->
  exists calls, log' = log ++ calls /\ Forall (handler_call E) calls.
Proof.
  intros H.
  destruct (handler_traced E event log r log' H)
    as (pairs & g & f & calls & -> & Htr).
  exists calls. split; [reflexivity|].
  now apply traced_allowed with pairs g f.
Qed.

Lemma handler_calls_allowed_witness :
  exists calls,
    snd (handler (Demo.world "pages" (Demo.throttled 3)) Demo.request [])
    = [] ++ calls
    /\ Forall (handler_call (Demo.world "pages" (Demo.throttled 3))) calls.
Proof.
  destruct (handler (Demo.world "pages" (Demo.throttled 3)) Demo.request [])
    as [r log'] eqn:H.
  exact (handler_calls_allowed _ _ _ _ _ H).
Defined.

(** X15: for a request that passes validation the handler calls the model
    at most twice and the store at most once per pair; every page in
    [generated] accounts for two calls to the model and one write; and when
    no pair failed there are exactly two calls to the model and one write
    per pair. *)
Theorem handler_call_bounds
    (E : env) (event : dict) (ts cs : list json) (log : list call) :
  valid_request E event ts cs ->
  exists generated failed calls,
    handler E event log
    = (Ok (create_response 200 (batch_payload generated failed) None),
       log ++ calls)
    /\ 2 * List.length generated <= count_invoke calls
    /\ count_invoke calls <= 2 * (List.length ts * List.length cs)
    /\ List.length generated <= count_put calls
    /\ count_put calls <= List.length ts * List.length cs
    /\ (failed = [] ->
        count_invoke calls = 2 * (List.length ts * List.length cs)
        /\ count_put calls = List.length ts * List.length cs).
Proof.
  intros Hvalid.
  destruct (valid_request_traced E event ts cs log Hvalid)
    as (g & f & calls & Hh & Htr).
  exists g, f, calls. split; [exact Hh|].
  destruct (traced_counts E _ _ _ _ Htr) as (C1 & C2 & C3 & C4 & C5).
  rewrite length_prod in *. repeat split; auto; now apply C5.
Qed.

Lemma handler_call_bounds_witness :
  exists generated failed calls,
    handler (Demo.world "pages" (Demo.throttled 3)) Demo.request []
    = (Ok (create_response 200 (batch_payload generated failed) None),
       [] ++ calls)
    /\ count_invoke calls <= 2 * (2 * 2)
    /\ count_put calls <= 2 * 2.
Proof.
  destruct (handler_call_bounds _ _ _ _ []
              (demo_request_valid "pages" (Demo.throttled 3) pages_configured))
    as (g & f & calls & Hh & _ & Hi & _ & Hp & _).
  exists g, f, calls. split; [exact Hh|]. split; [exact Hi|exact Hp].
Defined.



(** ** [generate_with_bedrock], [generate_content] and [save_to_s3] *)

(** X17: [generate_with_bedrock] makes exactly one call, whether it returns
    or raises.  It returns the [text] of the first block of the response's
    [content]; an error of the API is passed on, a response without
    [content] raises [KeyError] and one with an empty [content] raises
    [IndexError]. *)
Theorem generate_with_bedrock_spec (E : env) (prompt : string) (log : list call) :
  snd (generate_with_bedrock E prompt log)
  = log ++ [InvokeModel (BEDROCK_MODEL_ID E) prompt]
  /\ (forall e,
      invoke_model E log (BEDROCK_MODEL_ID E) prompt = Raise e ->
      fst (generate_with_bedrock E prompt log) = Raise e)
  /\ (forall response block more text,
      invoke_model E log (BEDROCK_MODEL_ID E) prompt = Ok (JObj response) ->
      dict_lookup "content" response = Some (JArr (JObj block :: more)) ->
      dict_lookup "text" block = Some text ->
      fst (generate_with_bedrock E prompt log) = Ok text)
  /\ (forall response,
      invoke_model E log (BEDROCK_MODEL_ID E) prompt = Ok (JObj response) ->
      dict_lookup "content" response = None ->
      fst (generate_with_bedrock E prompt log)
      = Raise (Exn KeyError "'content'"))
  /\ (forall response,
      invoke_model E log (BEDROCK_MODEL_ID E) prompt = Ok (JObj response) ->
      dict_lookup "content" response = Some (JArr []) ->
      fst (generate_with_bedrock E prompt log)
      = Raise (Exn IndexError "list index out of range")).
Proof.
  unfold generate_with_bedrock. simpl.
  split; [reflexivity|]. repeat split.
  - intros e ->. reflexivity.
  - intros response block more text -> Hc Ht. simpl.
    unfold dict_getitem. rewrite Hc. simpl.
    unfold dict_getitem. now rewrite Ht.
  - intros response -> Hc. simpl. unfold dict_getitem. now rewrite Hc.
  - intros response -> Hc. simpl. unfold dict_getitem. now rewrite Hc.
Qed.

Lemma generate_with_bedrock_spec_witness :
  fst (generate_with_bedrock Demo.pages "Say hello." []) = Ok (JStr "A page.")
  /\ fst (generate_with_bedrock (Demo.world "pages" Demo.down) "Say hello." [])
     = Raise (Exn ClientError "ServiceUnavailableException").
Proof.
  split.
  - exact (proj1 (proj2 (proj2
             (generate_with_bedrock_spec Demo.pages "Say hello." [])))
             _ _ [] _ eq_refl eq_refl eq_refl).
  - exact (proj1 (proj2
             (generate_with_bedrock_spec (Demo.world "pages" Demo.down)
                "Say hello." []))
             _ eq_refl).
Defined.

(** X18: [generate_content] calls the model at most twice and never the
    store; when it returns it has made exactly two calls, and when the first
    call raises the second is not made. *)
Theorem generate_content_calls
    (E : env) (topic category : json) (log log' : list call)
    (r : pyres generation_result) :
  generate_content E topic category log = (r, log') ->
  exists calls,
    log' = log ++ calls
    /\ count_put calls = 0
    /\ List.length calls <= 2
    /\ Forall (handler_call E) calls
    /\ (forall result, r = Ok result -> List.length calls = 2)
    /\ (forall prompt,
        hd_error calls = Some (InvokeModel (BEDROCK_MODEL_ID E) prompt) ->
        (exists e, fst (generate_with_bedrock E prompt log) = Raise e) ->
        List.length calls = 1).
Proof.
  intros H.
  pose proof H as Hrun.
  destruct (generate_content_trace E _ _ _ _ _ H)
    as [(-> & e & ->) | [(p & e & -> & ->) | (p1 & p2 & ->)]].
  - exists []. rewrite app_nil_r. repeat split; auto; discriminate.
  - eexists. repeat split; auto; try discriminate.
    repeat constructor.
  - eexists. repeat split; auto.
    + repeat constructor.
    + intros prompt Hhd (e & He). simpl in Hhd. injection Hhd as <-. exfalso.
      revert Hrun. unfold generate_content, bind, lift, ret, raise.
      destruct (config_lookup E category) as [[cfg|]|e0];
        [|intros Hr; inversion Hr as [[Hr1 Hr2]];
          apply (f_equal (@List.length call)) in Hr2;
          rewrite length_app in Hr2; simpl in Hr2; lia..].
      destruct (str_format E (prompt_template cfg) topic) as [prompt|e0];
        [|intros Hr; inversion Hr as [[Hr1 Hr2]];
          apply (f_equal (@List.length call)) in Hr2;
          rewrite length_app in Hr2; simpl in Hr2; lia].
      destruct (generate_with_bedrock_log E (prompt ++ html_instructions) log)
        as (c & Hc).
      rewrite Hc. destruct c as [c|e0].
      * match goal with |- context [generate_with_bedrock E ?p ?l] =>
          destruct (generate_with_bedrock_log E p l) as (m & Hm);
          rewrite Hm end.
        intros Hr.
        assert (Hlog : (log ++ [InvokeModel (BEDROCK_MODEL_ID E)
                                  (prompt ++ html_instructions)])
                       ++ [InvokeModel (BEDROCK_MODEL_ID E)
                             (meta_prompt_for E topic cfg)]
                       = log ++ [InvokeModel (BEDROCK_MODEL_ID E) p1;
                                 InvokeModel (BEDROCK_MODEL_ID E) p2]).
        { destruct m as [m|e0]; [destruct (py_strip m)|];
            now inversion Hr. }
        rewrite <- app_assoc in Hlog. apply app_inv_head in Hlog.
        simpl in Hlog. injection Hlog as <- _.
        rewrite Hc in He. discriminate.
      * intros Hr. inversion Hr as [[Hr1 Hr2]].
        apply (f_equal (@List.length call)) in Hr2.
        rewrite !length_app in Hr2. simpl in Hr2. lia.
Qed.

Lemma generate_content_calls_witness :
  exists calls,
    snd (generate_content Demo.pages (JStr "Tea") (JStr "facts") [])
    = [] ++ calls
    /\ List.length calls = 2.
Proof.
  destruct (generate_content Demo.pages (JStr "Tea") (JStr "facts") [])
    as [r log'] eqn:H.
  destruct (generate_content_calls _ _ _ _ _ _ H)
    as (calls & Hlog & _ & _ & _ & Htwo & _).
  exists calls. split; [exact Hlog|].
  destruct r as [result|e].
  - exact (Htwo result eq_refl).
  - exfalso. vm_compute in H. discriminate H.
Defined.

(** X19: for a category that is hashable and is no key of the table,
    [generate_content] raises [ValueError] with the category in its message
    before any prompt is built or sent. *)
Theorem generate_content_unknown_category
    (E : env) (topic category : json) (log : list call) :
  hashable category = true ->
  known E category = false ->
  generate_content E topic category log
  = (Raise (Exn ValueError ("Unknown category: " ++ py_str E category)%string),
     log).
Proof.
  intros Hhash Hknown. unfold generate_content, bind, lift, raise, config_lookup.
  destruct category as [| | |s|l|d]; try discriminate; try reflexivity.
  simpl in Hknown.
  destruct (config_find s (CATEGORY_CONFIG E)); [discriminate|reflexivity].
Qed.

Lemma generate_content_unknown_category_witness :
  generate_content Demo.pages (JStr "Tea") (JStr "bogus") []
  = (Raise (Exn ValueError "Unknown category: bogus"), []).
Proof.
  exact (generate_content_unknown_category Demo.pages (JStr "Tea")
           (JStr "bogus") [] eq_refl eq_refl).
Defined.



(** X21: a topic that is not a string never yields a page: its pair always
    ends in [failed] and nothing is written for it.  When generation and
    rendering succeed, the two calls to the model have been made and the
    error recorded is the [AttributeError] of [slugify]. *)
Theorem process_pair_non_string_topic
    (E : env) (topic category : json) (acc : outcome) (log : list call) :
  (forall text, topic <> JStr text) ->
  (exists e calls,
      process_pair E topic category acc log
      = (Ok (fst acc, snd acc ++ [failure_record topic category e]),
         log ++ calls)
      /\ count_put calls = 0)
  /\ (forall result log1 html,
      generate_content E topic category log = (Ok result, log1) ->
      render_html_page E topic category (category_name result)
        (content result) (meta_description result) = Ok html ->
      process_pair E topic category acc log
      = (Ok (fst acc,
             snd acc
             ++ [failure_record topic category (no_attribute topic "lower")]),
         log1)).
Proof.
  intros Htopic.
  assert (Hname : forall filename,
            generate_filename E topic category <> Ok filename).
  { intros filename. unfold generate_filename.
    destruct topic; simpl; try discriminate. now elim (Htopic s). }
  split.
  - destruct (process_pair_trace E topic category acc log)
      as (calls & Hlog & Hcase).
    destruct (process_pair E topic category acc log) as [r log'].
    simpl in Hlog, Hcase. subst log'.
    destruct Hcase as [(p1 & p2 & fn & html & at_ & Hfn & _) | (e & Hf & ->)].
    + now elim (Hname fn).
    + exists e, calls. split; [reflexivity|].
      destruct Hf; try reflexivity. now elim (Hname filename).
  - intros result log1 html Hgen Hrender.
    unfold process_pair, attempt_pair, try_except, bind, ret, save_to_s3, lift.
    rewrite Hgen, Hrender. unfold generate_filename.
    destruct topic; try reflexivity. now elim (Htopic s).
Qed.

Lemma process_pair_non_string_topic_witness :
  process_pair Demo.pages (JNum 7) (JStr "facts") ([], []) []
  = (Ok ([], [failure_record (JNum 7) (JStr "facts")
                (Exn AttributeError "'int' object has no attribute 'lower'")]),
     snd (generate_content Demo.pages (JNum 7) (JStr "facts") [])).
Proof.
  destruct (process_pair_non_string_topic Demo.pages (JNum 7) (JStr "facts")
              ([], []) []) as (_ & H); [discriminate|].
  destruct (generate_content Demo.pages (JNum 7) (JStr "facts") [])
    as [r log1] eqn:Hgen.
  destruct r as [result|e]; [|vm_compute in Hgen; discriminate Hgen].
  assert (Hrender : render_html_page Demo.pages (JNum 7) (JStr "facts")
                      (category_name result) (content result)
                      (meta_description result)
                    = Ok ("<html><head><title>" ++ category_name result
                          ++ "</title></head></html>")%string)
    by reflexivity.
  exact (H result log1 _ eq_refl Hrender).
Defined.

Section ApiDown.

Variable E : env.

Hypothesis api_down :
  forall log modelId prompt, exists e, invoke_model E log modelId prompt = Raise e.

Lemma process_pair_api_down topic category acc log :
  exists e calls,
    process_pair E topic category acc log
    = (Ok (fst acc, snd acc ++ [failure_record topic category e]),
       log ++ calls)
    /\ count_put calls = 0
    /\ List.length calls <= 1.
Proof.
  unfold process_pair, attempt_pair, try_except, bind, ret.
  unfold generate_content, bind, lift, raise, ret.
  destruct (config_lookup E category) as [[cfg|]|e].
  - destruct (str_format E (prompt_template cfg) topic) as [prompt|e].
    + unfold generate_with_bedrock at 1.
      destruct (api_down log (BEDROCK_MODEL_ID E) (prompt ++ html_instructions))
        as (e & ->).
      simpl. exists e. eexists. split; [reflexivity|]. cbn. auto.
    + exists e, []. rewrite app_nil_r. cbn. auto.
  - eexists. exists []. rewrite app_nil_r. cbn. auto.
  - exists e, []. rewrite app_nil_r. cbn. auto.
Qed.

Lemma categories_loop_api_down topic cs : forall acc log,
  exists failed calls,
    for_each cs (process_pair E topic) acc log
    = (Ok (fst acc, snd acc ++ failed), log ++ calls)
    /\ List.length failed = List.length cs
    /\ count_put calls = 0
    /\ List.length calls <= List.length cs.
Proof.
  induction cs as [|c cs IH]; intros acc log; simpl.
  - exists [], []. unfold ret. rewrite !app_nil_r. destruct acc. cbn. auto.
  - unfold bind.
    destruct (process_pair_api_down topic c acc log)
      as (e & calls1 & -> & P1 & L1).
    match goal with |- context [for_each cs _ ?a ?l] =>
      destruct (IH a l) as (f & calls2 & -> & F2 & P2 & L2) end.
    simpl. exists (failure_record topic c e :: f), (calls1 ++ calls2).
    rewrite <- !app_assoc, count_put_app, length_app. simpl.
    repeat split; auto; lia.
Qed.

Lemma topics_loop_api_down ts cs : forall acc log,
  exists failed calls,
    for_each ts (fun topic acc => for_each cs (process_pair E topic) acc)
      acc log
    = (Ok (fst acc, snd acc ++ failed), log ++ calls)
    /\ List.length failed = List.length ts * List.length cs
    /\ count_put calls = 0
    /\ List.length calls <= List.length ts * List.length cs.
Proof.
  induction ts as [|t ts IH]; intros acc log; simpl.
  - exists [], []. unfold ret. rewrite !app_nil_r. destruct acc. cbn. auto.
  - unfold bind.
    destruct (categories_loop_api_down t cs acc log)
      as (f1 & calls1 & -> & F1 & P1 & L1).
    match goal with |- context [for_each ts _ ?a ?l] =>
      destruct (IH a l) as (f2 & calls2 & -> & F2 & P2 & L2) end.
    simpl. exists (f1 ++ f2), (calls1 ++ calls2).
    rewrite <- !app_assoc, count_put_app, !length_app.
    repeat split; auto; lia.
Qed.

End ApiDown.

(** X22: when every call to the model raises, a request that passes
    validation is still answered with 200: [generated] is empty, [failed]
    has one record per pair, [success] is false, nothing is written, and at
    most one call per pair was attempted. *)
Theorem handler_api_down
    (E : env) (event : dict) (ts cs : list json) (log : list call) :
  valid_request E event ts cs ->
  (forall log modelId prompt,
      exists e, invoke_model E log modelId prompt = Raise e) ->
  exists failed calls,
    handler E event log
    = (Ok (create_response 200 (batch_payload [] failed) None), log ++ calls)
    /\ List.length failed = List.length ts * List.length cs
    /\ field "success" (batch_payload [] failed) = Some (JBool false)
    /\ count_put calls = 0
    /\ List.length calls <= List.length ts * List.length cs.
Proof.
  intros [Hm (body & topics & categories & Hb & Ht & Hc & Htt & Hct & Hts & Hcs)
            Hknown Hbucket] Hdown.
  destruct (topics_loop_api_down E Hdown ts cs ([], []) log)
    as (f & calls & Hloop & Hlen & Hput & Hcalls).
  exists f, calls.
  split; [|repeat split; auto].
  - rewrite (handler_processing E event (JObj body) topics categories ts cs
               log); auto.
    + now rewrite Hloop.
    + simpl. now rewrite Ht.
    + simpl. now rewrite Hc.
    + now apply reject_unknown_known.
  - simpl. destruct f as [|r f]; [|reflexivity].
    exfalso. simpl in Hlen.
    assert (ts <> []) by (intros ->; destruct topics; simpl in *;
      try discriminate; try (injection Hts as Hts);
      try (destruct s; discriminate); try (destruct items; discriminate);
      destruct fields as [|[]]; discriminate).
    assert (cs <> []) by (intros ->; destruct categories; simpl in *;
      try discriminate; try (injection Hcs as Hcs);
      try (destruct s; discriminate); try (destruct items; discriminate);
      destruct fields as [|[]]; discriminate).
    destruct ts; [congruence|]. destruct cs; [congruence|]. simpl in Hlen. lia.
Qed.

Lemma handler_api_down_witness :
  exists failed calls,
    handler (Demo.world "pages" Demo.down) Demo.request []
    = (Ok (create_response 200 (batch_payload [] failed) None), [] ++ calls)
    /\ List.length failed = 2 * 2.
Proof.
  destruct (handler_api_down (Demo.world "pages" Demo.down) Demo.request
              _ _ [] (demo_request_valid "pages" Demo.down pages_configured))
    as (f & calls & Hh & Hlen & _).
  - intros log m p. eexists. reflexivity.
  - exists f, calls. split; [exact Hh|exact Hlen].
Defined.

(** X23: [generate_content] returns only for a category of the table; the
    result carries that category's display name, and its meta description
    never starts with a whitespace character. *)
Theorem generate_content_result
    (E : env) (topic category : json) (log log' : list call)
    (result : generation_result) :
  generate_content E topic category log = (Ok result, log') ->
  known E category = true
  /\ (exists category_config,
        config_lookup E category = Ok (Some category_config)
        /\ category_name result = name category_config)
  /\ (forall c,
        Str.first (meta_description result) = Some c ->
        Str.is_space c = false).
Proof.
  intros H. pose proof H as Hrun. revert H.
  unfold generate_content, bind, lift, ret, raise.
  destruct (config_lookup E category) as [[cfg|]|e] eqn:Hcfg;
    [|discriminate..].
  destruct (str_format E (prompt_template cfg) topic) as [prompt|e] eqn:Hfmt;
    [|discriminate].
  destruct (generate_with_bedrock E (prompt ++ html_instructions) log)
    as [[c|e] log1] eqn:Hc; [|discriminate].
  destruct (generate_with_bedrock E (meta_prompt_for E topic cfg) log1)
    as [[meta|e] log2] eqn:Hm; [|discriminate].
  intros _.
  rewrite (generate_content_known E _ _ _ _ _ _ _ _ _ Hcfg Hfmt Hc Hm) in Hrun.
  destruct meta as [| | |text| |]; try discriminate.
  unfold py_strip in Hrun. injection Hrun as <- _.
  split; [|split].
  - unfold config_lookup in Hcfg. unfold known.
    destruct category; try discriminate.
    injection Hcfg as ->. reflexivity.
  - exists cfg. auto.
  - intros ch Hch.
    change (meta_description _)
      with (Str.take 160 (Str.strip Str.is_space text)) in Hch.
    unfold Str.strip in Hch.
    now apply StrFacts.first_take, StrFacts.first_rstrip,
      StrFacts.first_lstrip in Hch.
Qed.

Lemma generate_content_result_witness :
  exists result,
    fst (generate_content
           (Demo.world "pages" (Demo.steady "  A page about tea.  "))
           (JStr "Tea") (JStr "facts") [])
    = Ok result
    /\ category_name result = "Interesting Facts"%string
    /\ meta_description result = "A page about tea."%string.
Proof.
  destruct (generate_content
              (Demo.world "pages" (Demo.steady "  A page about tea.  "))
              (JStr "Tea") (JStr "facts") []) as [r log'] eqn:H.
  destruct r as [result|e]; [|vm_compute in H; discriminate H].
  destruct (generate_content_result _ _ _ _ _ _ H) as (_ & _ & _).
  exists result. vm_compute in H. injection H as <- _.
  repeat split.
Defined.
